(** * BioSat-Q: the BB84 session engine, the key buffer and the AES-GCM pipeline

    A shallow embedding of [crypto_utils.py], [biosat_core/quantum_sim.py] and
    the key-buffer handlers of [backend/main.py].

    Conventions of the embedding.
    - Python [int] is [Z]; [len] is [Z.of_nat] of a length; list and string
      indices produced by [range] are [nat].
    - Python [float] is idealised as an exact rational [Q]: comparison,
      [+], [-], [*], [/] are the rational ones and [int(x)] truncates toward
      zero.  Rounding of IEEE doubles is not modelled.
    - [str] is [string]; [bytes] is [list byte].
    - A raised exception is the left injection of [result]; the process state
      reached when it is raised is kept, as in Python.
    - Code outside this core (numpy's [log2] and [exp], the [cryptography]
      AES-GCM primitive, [json], [float] on strings, the risk classifier and
      the trigonometry of the link geometry) is taken through type classes;
      the laws assumed of it are separate classes in [Prop].
    - Randomness ([random], [numpy.random], [os.urandom]) is read from
      tapes held in the process state, one cell per library call. *)

From Stdlib Require Import List ZArith QArith Qround Qminmax String Ascii Bool Lia Lqa.
From Stdlib.Strings Require Import Byte.
From Stdlib Require DecimalString.
Import ListNotations.

Local Open Scope string_scope.
Local Open Scope list_scope.
Local Open Scope Z_scope.

(* ================================================================== *)
(** * Python values, exceptions and built-ins *)
(* ================================================================== *)

Module Py.

Inductive exn : Type :=
| ValueError (msg : string)
| OverflowError (msg : string)
| IndexError (msg : string)
| ZeroDivisionError (msg : string)
| JSONDecodeError (msg : string)
| UnicodeDecodeError (msg : string)
| InvalidTag.

Definition result (A : Type) : Type := (exn + A)%type.

Definition ok {A} (a : A) : result A := inr a.
Definition raise {A} (e : exn) : result A := inl e.

(** [str(e)] for an exception [e]. *)
Definition exn_str (e : exn) : string :=
  match e with
  | ValueError m | OverflowError m | IndexError m | ZeroDivisionError m
  | JSONDecodeError m | UnicodeDecodeError m => m
  | InvalidTag => EmptyString
  end.

(** [s[:n]] and [s[n:]] for [0 <= n]; slices clamp at the end of [s]. *)
Fixpoint str_take (n : nat) (s : string) : string :=
  match n, s with
  | S n', String c s' => String c (str_take n' s')
  | _, _ => EmptyString
  end.

Fixpoint str_drop (n : nat) (s : string) : string :=
  match n, s with
  | S n', String _ s' => str_drop n' s'
  | _, _ => s
  end.

Definition len_str (s : string) : Z := Z.of_nat (String.length s).
Definition len {A} (l : list A) : Z := Z.of_nat (List.length l).

(** A string made of the characters ['0'] and ['1'] only. *)
Definition is_bit_char (c : ascii) : bool :=
  (Ascii.eqb c "0" || Ascii.eqb c "1")%bool.

Fixpoint is_bits (s : string) : bool :=
  match s with
  | EmptyString => true
  | String c s' => (is_bit_char c && is_bits s')%bool
  end.

(** [int(s, 2)] on strings of binary digits.  The built-in also accepts
    surrounding whitespace, a sign, a [0b] prefix and single underscores
    between digits; the model raises on those, and no statement below relies
    on the outcome for a string that is not [is_bits]. *)
Fixpoint int2_digits (s : string) (acc : Z) : option Z :=
  match s with
  | EmptyString => Some acc
  | String c s' =>
      if Ascii.eqb c "0" then int2_digits s' (2 * acc)
      else if Ascii.eqb c "1" then int2_digits s' (2 * acc + 1)
      else None
  end.

Definition int_base2 (s : string) : result Z :=
  match s with
  | EmptyString => raise (ValueError "invalid literal for int() with base 2")
  | _ =>
      match int2_digits s 0 with
      | Some z => ok z
      | None => raise (ValueError "invalid literal for int() with base 2")
      end
  end.

Definition byte_of_Z (z : Z) : byte :=
  match Byte.of_N (Z.to_N (z mod 256)) with
  | Some b => b
  | None => x00
  end.

(** Big-endian digits of [z] in base 256, [n] of them. *)
Fixpoint be_bytes (n : nat) (z : Z) : list byte :=
  match n with
  | O => []
  | S n' => byte_of_Z (Z.shiftr z (8 * Z.of_nat n')) :: be_bytes n' z
  end.

(** [z.to_bytes(length, "big")]. *)
Definition to_bytes_big (z : Z) (length : Z) : result (list byte) :=
  if z <? 0 then raise (OverflowError "can't convert negative int to unsigned")
  else if 2 ^ (8 * length) <=? z then raise (OverflowError "int too big to convert")
  else ok (be_bytes (Z.to_nat length) z).

(** [int(x)] for a float [x]: truncation toward zero. *)
Definition int_of_float (x : Q) : Z := Z.quot (Qnum x) (Zpos (Qden x)).

(** [x < y] on floats. *)
Definition flt (x y : Q) : bool := negb (Qle_bool y x).

(** [max(x, y)] on floats: the second argument only when it is larger. *)
Definition fmax (x y : Q) : Q := if flt x y then y else x.

(** [a / b] on ints: true division. *)
Definition truediv (a b : Z) : result Q :=
  if b =? 0 then raise (ZeroDivisionError "division by zero")
  else ok (inject_Z a / inject_Z b)%Q.

(** [s[:k]] for any int [k]: a negative [k] counts from the end. *)
Definition str_prefix (k : Z) (s : string) : string :=
  if k <? 0 then str_take (Z.to_nat (len_str s + k)) s
  else str_take (Z.to_nat k) s.

(** [l[i]]. *)
Definition getitem {A} (l : list A) (i : nat) : result A :=
  match nth_error l i with
  | Some x => ok x
  | None => raise (IndexError "list index out of range")
  end.

(** [l[i] = v], returning the updated list. *)
Fixpoint list_set {A} (l : list A) (i : nat) (v : A) : list A :=
  match l, i with
  | [], _ => []
  | _ :: l', O => v :: l'
  | x :: l', S i' => x :: list_set l' i' v
  end.

Definition setitem {A} (l : list A) (i : nat) (v : A) : result (list A) :=
  if (i <? List.length l)%nat then ok (list_set l i v)
  else raise (IndexError "list assignment index out of range").

(** [str(b)] for [b] an [int] or [None]. *)
Definition str_int (z : Z) : string :=
  DecimalString.NilZero.string_of_int (Z.to_int z).

Definition str_opt_int (b : option Z) : string :=
  match b with
  | Some z => str_int z
  | None => "None"
  end.

(** [''.join(l)]. *)
Definition join (l : list string) : string :=
  fold_right String.append EmptyString l.

(** [min(x, y)] on floats: the second argument only when it is smaller. *)
Definition fmin (x y : Q) : Q := if flt y x then y else x.

(** [numpy.clip(x, lo, hi)] on a scalar. *)
Definition clip (x lo hi : Q) : Q := fmin (fmax x lo) hi.

(** Rounding to the nearest integer, ties to the even one. *)
Definition round_half_even (x : Q) : Z :=
  let f := Qfloor x in
  let r := (x - inject_Z f)%Q in
  if flt r (1 # 2) then f
  else if flt (1 # 2) r then f + 1
  else if Z.even f then f else f + 1.

(** [round(x, 2)] on a float. *)
Definition round2 (x : Q) : Q :=
  (inject_Z (round_half_even (x * 100)) / 100)%Q.

End Py.
Import Py.

(* ================================================================== *)
(** * Process state and the monad of effects *)
(* ================================================================== *)

(** The dict returned by [transmit_bb84]. *)
Record session_result : Type := mkSession {
  n_sent : Z;
  n_sifted : Z;
  qber : Q;
  R_secure_bits : Z;
  sifted_key : string
}.

(** [LAST_QKD]: the session dict with its two geometry entries. *)
Record qkd_stats : Type := mkStats {
  distance_km : Q;
  trans_prob : Q;
  session : session_result
}.

(** One call into Python's [random] module, read according to which
    function made the call. *)
Record draw : Type := mkDraw {
  as_randint01 : bool;              (* random.randint(0,1) returned 1 *)
  as_choice2 : bool;                (* random.choice picked the second item *)
  as_random : Q;                    (* random.random() *)
  as_sample : nat -> nat -> list nat (* random.sample(range(n), k) *)
}.

Record world : Type := mkWorld {
  KEY_BUFFER : string;
  LAST_QKD : option qkd_stats;
  py_tape : nat -> draw;  py_pos : nat;   (* the random module *)
  np_tape : nat -> Q;     np_pos : nat;   (* numpy.random *)
  os_tape : nat -> byte;  os_pos : nat    (* os.urandom *)
}.

Definition M (A : Type) : Type := world -> result A * world.

Definition ret {A} (a : A) : M A := fun w => (ok a, w).
Definition throw {A} (e : exn) : M A := fun w => (raise e, w).
Definition bind {A B} (m : M A) (f : A -> M B) : M B :=
  fun w => match m w with
           | (inr a, w') => f a w'
           | (inl e, w') => (inl e, w')
           end.
Definition lift {A} (r : result A) : M A := fun w => (r, w).

(** [try: m  except Exception as e: ...]: the outcome of [m] as a value. *)
Definition attempt {A} (m : M A) : M (result A) :=
  fun w => let '(r, w') := m w in (ok r, w').

Declare Scope py_scope.
Delimit Scope py_scope with py.
Notation "x <- m ;; k" := (bind m (fun x => k))
  (at level 61, m at next level, right associativity) : py_scope.
Notation "m ;;; k" := (bind m (fun _ => k))
  (at level 61, right associativity) : py_scope.
Open Scope py_scope.

(** [for x in xs: acc = body x acc]. *)
Fixpoint for_each {A S} (xs : list A) (body : A -> S -> M S) (acc : S) : M S :=
  match xs with
  | [] => ret acc
  | x :: xs' => acc' <- body x acc ;; for_each xs' body acc'
  end.

(** [[f(x) for x in xs]]. *)
Fixpoint comprehension {A B} (f : A -> M B) (xs : list A) : M (list B) :=
  match xs with
  | [] => ret []
  | x :: xs' => y <- f x ;; ys <- comprehension f xs' ;; ret (y :: ys)
  end.

(** [[x for x in xs if p(x)]]. *)
Fixpoint comprehension_if {A} (p : A -> M bool) (xs : list A) : M (list A) :=
  match xs with
  | [] => ret []
  | x :: xs' =>
      b <- p x ;; ys <- comprehension_if p xs' ;;
      ret (if b then x :: ys else ys)
  end.

(** [range(n)]: empty for [n <= 0]. *)
Definition range (n : Z) : list nat := seq 0 (Z.to_nat n).

(** ** The random sources *)

Definition next_draw : M draw :=
  fun w => (ok (py_tape w (py_pos w)),
            mkWorld (KEY_BUFFER w) (LAST_QKD w)
                    (py_tape w) (S (py_pos w))
                    (np_tape w) (np_pos w) (os_tape w) (os_pos w)).

(** [random.randint(0,1)]. *)
Definition random_randint01 : M Z :=
  d <- next_draw ;; ret (Z.b2z (as_randint01 d)).

(** [random.choice([x, y])]. *)
Definition random_choice2 {A} (x y : A) : M A :=
  d <- next_draw ;; ret (if as_choice2 d then y else x).

(** [random.random()]. *)
Definition random_random : M Q :=
  d <- next_draw ;; ret (as_random d).

(** [random.sample(range(n), k)]. *)
Definition random_sample_range (n k : Z) : M (list nat) :=
  if (k <? 0) || (n <? k) then
    throw (ValueError "Sample larger than population or is negative")
  else d <- next_draw ;; ret (as_sample d (Z.to_nat n) (Z.to_nat k)).

(** [numpy.random.rand(n)]. *)
Definition np_random_rand (n : Z) : M (list Q) :=
  if n <? 0 then throw (ValueError "negative dimensions are not allowed")
  else fun w =>
    (ok (map (np_tape w) (seq (np_pos w) (Z.to_nat n))),
     mkWorld (KEY_BUFFER w) (LAST_QKD w)
             (py_tape w) (py_pos w)
             (np_tape w) (np_pos w + Z.to_nat n) (os_tape w) (os_pos w)).

(** [os.urandom(n)]. *)
Definition os_urandom (n : nat) : M (list byte) :=
  fun w =>
    (ok (map (os_tape w) (seq (os_pos w) n)),
     mkWorld (KEY_BUFFER w) (LAST_QKD w)
             (py_tape w) (py_pos w)
             (np_tape w) (np_pos w) (os_tape w) (os_pos w + n)).

(** The contract of [random.sample]: [k] distinct members of the
    population. *)
Definition sample_ok (w : world) : Prop :=
  forall i n k, (k <= n)%nat ->
    let l := as_sample (py_tape w i) n k in
    List.length l = k /\ NoDup l /\ Forall (fun j => (j < n)%nat) l.

(** [w'] differs from [w] at most in how far the [random] and
    [numpy.random] tapes have been read. *)
Definition rng_only (w w' : world) : Prop :=
  KEY_BUFFER w' = KEY_BUFFER w /\ LAST_QKD w' = LAST_QKD w /\
  py_tape w' = py_tape w /\ np_tape w' = np_tape w /\
  os_tape w' = os_tape w /\ os_pos w' = os_pos w.

(** The globals of [backend/main.py]. *)
Definition get_KEY_BUFFER : M string := fun w => (ok (KEY_BUFFER w), w).
Definition set_KEY_BUFFER (s : string) : M unit :=
  fun w => (ok tt, mkWorld s (LAST_QKD w) (py_tape w) (py_pos w)
                           (np_tape w) (np_pos w) (os_tape w) (os_pos w)).
Definition set_LAST_QKD (q : qkd_stats) : M unit :=
  fun w => (ok tt, mkWorld (KEY_BUFFER w) (Some q) (py_tape w) (py_pos w)
                           (np_tape w) (np_pos w) (os_tape w) (os_pos w)).

(* ================================================================== *)
(** * crypto_utils.py *)
(* ================================================================== *)

(** The AES-GCM primitive of the [cryptography] package: key, nonce and
    data, no associated data.  Encryption is taken as total, as it is for
    the 12-byte nonces drawn here; decryption raises what the library
    raises ([InvalidTag], or [ValueError] on a nonce of the wrong size). *)
Class AESGCM_lib : Type := {
  aes_gcm_encrypt : list byte -> list byte -> list byte -> list byte;
  aes_gcm_decrypt : list byte -> list byte -> list byte -> result (list byte)
}.

(** Correctness of the primitive for 128-bit keys and 96-bit nonces. *)
Class AESGCM_correct (L : AESGCM_lib) : Prop := {
  aes_gcm_roundtrip :
    forall key nonce data,
      List.length key = 16%nat -> List.length nonce = 12%nat ->
      aes_gcm_decrypt key nonce (aes_gcm_encrypt key nonce data) = ok data
}.

Module CryptoUtils.

Definition bits_to_bytes (key_bits : string) (length_bytes : Z) : result (list byte) :=
  let needed := length_bytes * 8 in
  if len_str key_bits <? needed then raise (ValueError "Not enough key bits")
  else
    match int_base2 (str_take (Z.to_nat needed) key_bits) with
    | inr z => to_bytes_big z length_bytes
    | inl e => raise e
    end.

(** [AESGCM(key)]: the constructor checks the key size. *)
Definition AESGCM (key : list byte) : result (list byte) :=
  if existsb (Z.eqb (len key)) [16; 24; 32] then ok key
  else raise (ValueError "AESGCM key must be 128, 192, or 256 bits.").

Section WithCipher.
Context {L : AESGCM_lib}.

Definition aesgcm_encrypt_with_bits (key_bits : string) (plaintext_bytes : list byte)
  : M (list byte) :=
  key <- lift (bits_to_bytes key_bits 16) ;;
  aesgcm <- lift (AESGCM key) ;;
  nonce <- os_urandom 12 ;;
  let ct := aes_gcm_encrypt aesgcm nonce plaintext_bytes in
  ret (nonce ++ ct).

Definition aesgcm_decrypt_with_bits (key_bits : string) (ciphertext_bytes : list byte)
  : M (list byte) :=
  key <- lift (bits_to_bytes key_bits 16) ;;
  aesgcm <- lift (AESGCM key) ;;
  let nonce := firstn 12 ciphertext_bytes in
  let ct := skipn 12 ciphertext_bytes in
  pt <- lift (aes_gcm_decrypt aesgcm nonce ct) ;;
  ret pt.

End WithCipher.

End CryptoUtils.

(* ================================================================== *)
(** * biosat_core/quantum_sim.py *)
(* ================================================================== *)

(** numpy's base-2 logarithm. *)
Class Numpy_lib : Type := {
  np_log2 : Q -> Q
}.

(** The one fact used about it: it is not positive on the open unit
    interval. *)
Class Numpy_ok (N : Numpy_lib) : Prop := {
  np_log2_nonpos : forall p : Q, (0 < p)%Q -> (p < 1)%Q -> (np_log2 p <= 0)%Q
}.

(** The local variables of [transmit_bb84] when it returns.  [sample_idx]
    and [errors] are bound only when a sample was drawn. *)
Module Locals.
Record t : Type := mk {
  a_bits : list Z;
  a_bases : list string;
  arrives : list bool;
  b_bases : list string;
  b_results : list (option Z);
  sifted_indices : list nat;
  a_sift : list Z;
  b_sift : list (option Z);
  sample_size : Z;
  sample_idx : option (list nat);
  errors : option Z;
  qber : Q;
  leak_ec : Q;
  R_secure : Z;
  sifted_key : string;
  demo_key : string
}.
End Locals.

Module QuantumSim.

Definition random_bits (n : Z) : M (list Z) :=
  comprehension (fun _ => random_randint01) (range n).

Definition random_bases (n : Z) : M (list string) :=
  comprehension (fun _ => random_choice2 "Z" "X") (range n).

Section WithNumpy.
Context {N : Numpy_lib}.

Definition bin_entropy (p : Q) : Q :=
  if Qle_bool p 0 || Qle_bool 1 p then 0%Q
  else (- p * np_log2 p - (1 - p) * np_log2 (1 - p))%Q.

(** [a_sift[k] != b_sift[k]]: an int against an int or [None]. *)
Definition int_ne (a : Z) (b : option Z) : bool :=
  match b with
  | Some b' => negb (a =? b')
  | None => true
  end.

(** One iteration of the measurement loop. *)
Definition measure (a_bits : list Z) (a_bases : list string) (arrives : list bool)
    (b_bases : list string) (error_prob : Q) (i : nat)
    (b_results : list (option Z)) : M (list (option Z)) :=
  arr <- lift (getitem arrives i) ;;
  if negb arr then lift (setitem b_results i None)
  else
    ab <- lift (getitem a_bases i) ;;
    bb <- lift (getitem b_bases i) ;;
    if String.eqb ab bb then
      bit <- lift (getitem a_bits i) ;;
      u <- random_random ;;
      let bit := if flt u error_prob then Z.lxor bit 1 else bit in
      lift (setitem b_results i (Some bit))
    else
      r <- random_randint01 ;;
      lift (setitem b_results i (Some r)).

(** [arrives[i] and a_bases[i]==b_bases[i]]. *)
Definition is_sifted (a_bases : list string) (arrives : list bool)
    (b_bases : list string) (i : nat) : M bool :=
  arr <- lift (getitem arrives i) ;;
  if arr then
    ab <- lift (getitem a_bases i) ;;
    bb <- lift (getitem b_bases i) ;;
    ret (String.eqb ab bb)
  else ret false.

(** [sum(1 for k in sample_idx if a_sift[k] != b_sift[k])]. *)
Definition count_errors (a_sift : list Z) (b_sift : list (option Z))
    (sample_idx : list nat) : M Z :=
  for_each sample_idx
    (fun k acc =>
       x <- lift (getitem a_sift k) ;;
       y <- lift (getitem b_sift k) ;;
       ret (if int_ne x y then acc + 1 else acc))
    0.

(** The sampling block: [sample_size], [sample_idx], [errors], [qber]. *)
Definition estimate_qber (a_sift : list Z) (b_sift : list (option Z))
  : M (Z * option (list nat) * option Z * Q) :=
  let sample_size :=
    match a_sift with
    | [] => 0
    | _ => Z.max 1 (int_of_float ((2 # 10) * inject_Z (len a_sift)))
    end in
  if (0 <? sample_size) && (sample_size <=? len a_sift) then
    sample_idx <- random_sample_range (len a_sift) sample_size ;;
    errors <- count_errors a_sift b_sift sample_idx ;;
    qber <- lift (truediv errors sample_size) ;;
    ret (sample_size, Some sample_idx, Some errors, qber)
  else
    ret (sample_size, None, None, 0%Q).

(** The end of [transmit_bb84]: the QBER estimate, the secure-bit count
    and the key. *)
Definition estimate_and_distill (a_bits : list Z) (a_bases : list string)
    (arrives : list bool) (b_bases : list string) (b_results : list (option Z))
    (sifted_indices : list nat) (a_sift : list Z) (b_sift : list (option Z))
  : M Locals.t :=
  est <- estimate_qber a_sift b_sift ;;
  let '(sample_size, sample_idx, errors, qber) := est in
  let leak_ec := (1 # 10)%Q in
  let R_secure :=
    Z.max 0 (int_of_float (inject_Z (len a_sift)
                           * fmax 0 (1 - bin_entropy qber - leak_ec))%Q) in
  let sifted_key := join (map str_opt_int b_sift) in
  let demo_key := str_prefix R_secure sifted_key in
  ret (Locals.mk a_bits a_bases arrives b_bases b_results sifted_indices
         a_sift b_sift sample_size sample_idx errors qber leak_ec R_secure
         sifted_key demo_key).

Definition transmit_bb84_locals (n_photons : Z) (trans_prob error_prob : Q)
  : M Locals.t :=
  a_bits <- random_bits n_photons ;;
  a_bases <- random_bases n_photons ;;
  rand <- np_random_rand n_photons ;;
  let arrives := map (fun u => flt u trans_prob) rand in
  b_bases <- random_bases n_photons ;;
  let b_results := repeat (@None Z) (Z.to_nat n_photons) in
  b_results <- for_each (range n_photons)
                 (measure a_bits a_bases arrives b_bases error_prob) b_results ;;
  sifted_indices <- comprehension_if (is_sifted a_bases arrives b_bases)
                      (range n_photons) ;;
  a_sift <- comprehension (fun i => lift (getitem a_bits i)) sifted_indices ;;
  b_sift <- comprehension (fun i => lift (getitem b_results i)) sifted_indices ;;
  estimate_and_distill a_bits a_bases arrives b_bases b_results sifted_indices
    a_sift b_sift.

(** The returned dict. *)
Definition result_dict (n_photons : Z) (f : Locals.t) : session_result :=
  mkSession n_photons (len (Locals.a_sift f)) (Locals.qber f)
            (Locals.R_secure f) (Locals.demo_key f).

Definition transmit_bb84 (n_photons : Z) (trans_prob error_prob : Q)
  : M session_result :=
  f <- transmit_bb84_locals n_photons trans_prob error_prob ;;
  ret (result_dict n_photons f).

End WithNumpy.



End QuantumSim.

(* ================================================================== *)
(** * backend/main.py *)
(* ================================================================== *)

(** [predict_risk]'s dict. *)
Record ml_result : Type := mkMl {
  risk_prob : Q;
  risk_label : Z
}.

(** What the handlers take from outside this core: the parsed JSON body
    of a request (an object) with [json.dumps]/[json.loads], [float] on a
    query string, the risk classifier and the link geometry. *)
Class Backend_lib : Type := {
  json : Type;
  value : Type;
  num : Q -> value;
  json_dumps_encode : json -> list byte;          (* json.dumps(d).encode() *)
  json_loads_decode : list byte -> result json;   (* json.loads(b.decode()) *)
  dict_get : json -> string -> value -> value;    (* d.get(k, default) *)
  float_of_str : string -> result Q;              (* float(s) *)
  predict_risk : value -> value -> value -> Q -> ml_result;
  sat_ground_distance_km : Q -> Q -> Q -> Q -> Q -> Q;
  np_exp : Q -> Q
}.

(** [json.loads] inverts [json.dumps] on a parsed body. *)
Class Json_ok (B : Backend_lib) : Prop := {
  json_roundtrip : forall d : json, json_loads_decode (json_dumps_encode d) = ok d
}.

(** The request of [/ingest]: its body and its [radiation] query
    parameter when present. *)
Record request {B : Backend_lib} : Type := mkRequest {
  body : json;
  radiation_param : option string
}.
Arguments mkRequest {B} body radiation_param.

Record run_response : Type := mkRunResponse {
  added_bits : Z;
  run_key_buffer_len : Z;
  qkd_stats_of : qkd_stats
}.

(** The dict returned by [ingest]; a key absent from the dict is [None]. *)
Record ingest_response : Type := mkIngestResponse {
  status : string;
  secure : option bool;
  ml : option ml_result;
  reason : option string;
  error : option string;
  key_buffer_len : Z
}.

Module Backend.
Import CryptoUtils QuantumSim.

Definition GS_LAT : Q := 0%Q.
Definition GS_LON : Q := 0%Q.

Section WithLibs.
Context {L : AESGCM_lib} {N : Numpy_lib} {B : Backend_lib}.

(** [quantum_sim.trans_prob_from_distance], default loss coefficient. *)
Definition trans_prob_from_distance (d_km : Q) : Q :=
  np_exp (- (12 # 10000) * d_km)%Q.

Definition run_qkd (n_photons : Z) (alt_km sat_lat sat_lon error_prob : Q)
  : M run_response :=
  let d := sat_ground_distance_km alt_km GS_LAT GS_LON sat_lat sat_lon in
  let trans_prob := trans_prob_from_distance d in
  res <- transmit_bb84 n_photons trans_prob error_prob ;;
  kb <- get_KEY_BUFFER ;;
  set_KEY_BUFFER (kb ++ sifted_key res)%string ;;;
  let last := mkStats d trans_prob res in
  set_LAST_QKD last ;;;
  kb' <- get_KEY_BUFFER ;;
  ret (mkRunResponse (R_secure_bits res) (len_str kb') last).

(** [float(request.query_params.get("radiation", 0.1))], [0.1] on
    [ValueError]. *)
Definition radiation_of (r : request) : Q :=
  match radiation_param r with
  | None => (1 # 10)%Q
  | Some s => match float_of_str s with
              | inr x => x
              | inl _ => (1 # 10)%Q
              end
  end.

Definition risk_of (telemetry : json) (radiation : Q) : ml_result :=
  predict_risk (dict_get telemetry "hr" (num 75))
               (dict_get telemetry "spo2" (num 98))
               (dict_get telemetry "temp" (num (365 # 10)))
               radiation.

Definition ingest (r : request) : M ingest_response :=
  let data := body r in
  let payload_bytes := json_dumps_encode data in
  let radiation := radiation_of r in
  kb <- get_KEY_BUFFER ;;
  if 128 <=? len_str kb then
    let key_bits := str_take 128 kb in
    set_KEY_BUFFER (str_drop 128 kb) ;;;
    ct <- aesgcm_encrypt_with_bits key_bits payload_bytes ;;
    tried <- attempt (pt <- aesgcm_decrypt_with_bits key_bits ct ;;
                      lift (json_loads_decode pt)) ;;
    match tried with
    | inl e =>
        kb' <- get_KEY_BUFFER ;;
        ret (mkIngestResponse "error" None None None
               (Some ("Decryption Failed: " ++ exn_str e)%string) (len_str kb'))
    | inr telemetry =>
        let ml_res := risk_of telemetry radiation in
        kb' <- get_KEY_BUFFER ;;
        ret (mkIngestResponse "ok" (Some true) (Some ml_res) None None
               (len_str kb'))
    end
  else
    let ml_res := risk_of data radiation in
    kb' <- get_KEY_BUFFER ;;
    ret (mkIngestResponse "ok" (Some false) (Some ml_res)
           (Some "not_enough_qkd_bits") None (len_str kb')).

(** The state in which [ingest] has just taken its chunk. *)
Definition withdrawn (w : world) : world :=
  snd (set_KEY_BUFFER (str_drop 128 (KEY_BUFFER w)) w).


(** ** Sequences of requests *)










End WithLibs.

End Backend.

(* ================================================================== *)
(** * biosat_core/orbit_sim.py and biosat_core/data_sensor.py *)
(* ================================================================== *)

Module OrbitSim.

Definition R_EARTH_KM : Q := 6371%Q.

(** [estimate_radiation(alt_km)]: the radiation scalar the dashboards
    send to [/ingest]. *)
Definition estimate_radiation (alt_km : Q) : Q :=
  clip ((alt_km - 200) / 800)%Q 0 1.

End OrbitSim.

Module DataSensor.

(** What [get_demo_telemetry] reads: the clock and the standard normal
    deviates behind [random.gauss], one per call. *)
Record env : Type := mkEnv {
  time_time : Q;
  normal_tape : nat -> Q
}.

(** The returned dict. *)
Record telemetry : Type := mkTelemetry {
  ts : Z;
  hr : Z;
  spo2 : Z;
  temp : Q;
  device : string
}.

(** [random.gauss(mu, sigma)], reading cell [pos] of the tape. *)
Definition random_gauss (e : env) (pos : nat) (mu sigma : Q) : Q * nat :=
  ((mu + normal_tape e pos * sigma)%Q, S pos).

Definition get_demo_telemetry (e : env) (pos : nat) : telemetry * nat :=
  let ts := int_of_float (time_time e * 1000)%Q in
  let '(g1, pos) := random_gauss e pos 0 6 in
  let hr := int_of_float (fmax 50 (fmin 120 (75 + g1)%Q)) in
  let '(g2, pos) := random_gauss e pos 0 (12 # 10) in
  let spo2 := int_of_float (fmax 85 (fmin 100 (98 + g2)%Q)) in
  let '(g3, pos) := random_gauss e pos 0 (3 # 10) in
  let temp := round2 (fmax 34 (fmin 40 ((365 # 10) + g3)%Q)) in
  (mkTelemetry ts hr spo2 temp "ARD01", pos).

End DataSensor.

(* ================================================================== *)
(** * Closed forms used in the statements *)
(* ================================================================== *)

Module View.

(** The sifting condition at photon [i]. *)
Definition kept (a_bases : list string) (arrives : list bool)
    (b_bases : list string) (i : nat) : bool :=
  nth i arrives false && String.eqb (nth i a_bases "") (nth i b_bases "").

(** Sender and receiver disagree at position [k] of the sifted lists. *)
Definition mismatch (a_sift : list Z) (b_sift : list (option Z)) (k : nat) : bool :=
  QuantumSim.int_ne (nth k a_sift 0) (nth k b_sift None).

(** A receiver outcome that is a bit. *)
Definition is_some_bit (v : option Z) : Prop := v = Some 0 \/ v = Some 1.

Definition is_bit (b : Z) : Prop := b = 0 \/ b = 1.

(** Sample size as the code computes it: a fifth of the sifted count
    rounded down, and at least one. *)
Definition sample_size_floor (sifted : Z) : Z :=
  if sifted =? 0 then 0 else Z.max 1 (Qfloor ((2 # 10) * inject_Z sifted)).

(** Sample size as the specification words it: rounded up. *)
Definition sample_size_ceil (sifted : Z) : Z :=
  if sifted =? 0 then 0 else Z.max 1 (Qceiling ((2 # 10) * inject_Z sifted)).

(** What the sampling block leaves in [sample_size], [sample_idx],
    [errors] and [qber]. *)
Definition sampled (a_sift : list Z) (b_sift : list (option Z))
    (size : Z) (idx : option (list nat)) (errs : option Z) (q : Q) : Prop :=
  size = sample_size_floor (len a_sift) /\
  match a_sift with
  | [] => idx = None /\ errs = None /\ q = 0%Q
  | _ :: _ =>
      exists l,
        idx = Some l /\ len l = size /\ NoDup l /\
        Forall (fun k => (k < List.length a_sift)%nat) l /\
        errs = Some (len (filter (mismatch a_sift b_sift) l)) /\
        q = (inject_Z (len (filter (mismatch a_sift b_sift) l)) / inject_Z size)%Q
  end.

(** How the locals of a returned session are related. *)
Definition session_facts {N : Numpy_lib} (n : Z) (f : Locals.t) : Prop :=
  Locals.sifted_indices f
    = filter (kept (Locals.a_bases f) (Locals.arrives f) (Locals.b_bases f)) (range n) /\
  Locals.a_sift f
    = map (fun i => nth i (Locals.a_bits f) 0) (Locals.sifted_indices f) /\
  Locals.b_sift f
    = map (fun i => nth i (Locals.b_results f) None) (Locals.sifted_indices f) /\
  Forall is_some_bit (Locals.b_sift f) /\
  sampled (Locals.a_sift f) (Locals.b_sift f) (Locals.sample_size f)
          (Locals.sample_idx f) (Locals.errors f) (Locals.qber f) /\
  Locals.R_secure f
    = Z.max 0 (int_of_float
                 (inject_Z (len (Locals.a_sift f))
                  * fmax 0 (1 - QuantumSim.bin_entropy (Locals.qber f) - (1 # 10)))%Q) /\
  Locals.sifted_key f = join (map str_opt_int (Locals.b_sift f)) /\
  Locals.demo_key f = str_prefix (Locals.R_secure f) (Locals.sifted_key f).

(** Binary Shannon entropy over a given base-2 logarithm, with the
    convention [H2(0) = H2(1) = 0]. *)
Definition H2 {N : Numpy_lib} (p : Q) : Q :=
  if Qeq_bool p 0 then 0%Q
  else if Qeq_bool p 1 then 0%Q
  else (- (p * np_log2 p) - (1 - p) * np_log2 (1 - p))%Q.

(** The secure-bit count of the specification. *)
Definition secure_rate {N : Numpy_lib} (sifted : Z) (qber : Q) : Z :=
  Qfloor (inject_Z sifted * Qmax 0 (1 - H2 qber - (1 # 10)))%Q.

(** The [k] low binary digits of [z], most significant first. *)
Fixpoint bin (k : nat) (z : Z) : string :=
  match k with
  | O => ""
  | S k' => String (if Z.testbit z (Z.of_nat k') then "1" else "0")%char (bin k' z)
  end.

(** A byte string written out in bits, eight per byte. *)
Definition bits_of_bytes (l : list byte) : string :=
  join (map (fun b => bin 8 (Z.of_N (Byte.to_N b))) l).

(** The receiver outcome on a sifted photon whose channel draw is [u]. *)
Definition outcome (error_prob : Q) (a : Z) (u : Q) : option Z :=
  Some (if flt u error_prob then Z.lxor a 1 else a).

End View.

(* ================================================================== *)
(** * Executable stand-ins for the libraries, and a start state *)
(* ================================================================== *)

(** These make the development runnable on concrete inputs and show that
    the laws assumed of the libraries can be met. *)
Module Standin.

(** Base-2 logarithm by chords: exact at the powers of two, linear between
    them. *)
Fixpoint log2_chord_aux (fuel : nat) (p : Q) : Q :=
  if Qle_bool 1 p then (p - 1)%Q
  else match fuel with
       | O => (p - 1)%Q
       | S fuel' => (log2_chord_aux fuel' (2 * p) - 1)%Q
       end.

Definition log2_chord (p : Q) : Q :=
  log2_chord_aux (Pos.size_nat (Qden p)) p.

#[export] Instance numpy : Numpy_lib := {| np_log2 := log2_chord |}.

(** A keyed scrambler with a 16-byte tag, in the format of AES-GCM
    (ciphertext followed by tag).  It offers no secrecy. *)
Definition tag_of (key nonce : list byte) : list byte :=
  firstn 16 (key ++ nonce ++ repeat x00 16).

Definition bytes_eqb (a b : list byte) : bool :=
  if list_eq_dec Byte.byte_eq_dec a b then true else false.

Definition scramble (key nonce data : list byte) : list byte :=
  rev data ++ tag_of key nonce.

Definition unscramble (key nonce blob : list byte) : result (list byte) :=
  let n := (List.length blob - 16)%nat in
  if (List.length blob <? 16)%nat then raise InvalidTag
  else if bytes_eqb (skipn n blob) (tag_of key nonce)
       then ok (rev (firstn n blob))
       else raise InvalidTag.

#[export] Instance cipher : AESGCM_lib :=
  {| aes_gcm_encrypt := scramble; aes_gcm_decrypt := unscramble |}.

(** A backend whose JSON bodies are kept as their serialisation. *)
#[export] Instance backend : Backend_lib := {|
  json := list byte;
  value := Q;
  num := fun q => q;
  json_dumps_encode := fun d => d;
  json_loads_decode := fun b => ok b;
  dict_get := fun _ _ default => default;
  float_of_str := fun _ => raise (ValueError "could not convert string to float");
  predict_risk := fun hr _ _ radiation =>
                    mkMl radiation (if Qle_bool 95 hr then 1 else 0);
  sat_ground_distance_km := fun alt _ _ _ _ => alt;
  np_exp := fun x => if Qle_bool x 0 then (1 / (1 - x))%Q else (1 + x)%Q
|}.

(** A process at start-up: empty buffer, tapes on which every photon
    arrives, bits alternate, bases agree, and a sample is the first [k]
    indices. *)
Definition start : world := {|
  KEY_BUFFER := "";
  LAST_QKD := None;
  py_tape := fun i => mkDraw (Nat.odd i) false (1 # 2) (fun _ k => seq 0 k);
  py_pos := 0;
  np_tape := fun _ => 0%Q;
  np_pos := 0;
  os_tape := fun i => byte_of_Z (Z.of_nat i);
  os_pos := 0
|}.

(** The same process holding [s] in its key buffer. *)
Definition with_buffer (s : string) : world := {|
  KEY_BUFFER := s;
  LAST_QKD := None;
  py_tape := py_tape start; py_pos := 0;
  np_tape := np_tape start; np_pos := 0;
  os_tape := os_tape start; os_pos := 0
|}.

(** A request with the body [{}] and no query parameter, and a short
    run of requests. *)
Definition req : request := mkRequest (B := backend) [x7b; x7d] None.


(** A cipher whose decryption always fails. *)
Definition refusing : AESGCM_lib :=
  {| aes_gcm_encrypt := scramble;
     aes_gcm_decrypt := fun _ _ _ => raise InvalidTag |}.

(** A sensor at time 1.5 s whose deviates grow with each call. *)
Definition sensor : DataSensor.env :=
  DataSensor.mkEnv (3 # 2) (fun i => inject_Z (Z.of_nat i * 20 - 10)).

(** [n] copies of the characters ['1'], ['0'] alternating. *)
Fixpoint bits10 (n : nat) : string :=
  match n with
  | O => ""
  | S n' => String (if Nat.odd n then "1" else "0")%char (bits10 n')
  end.

End Standin.

(* ================================================================== *)
(** * Facts about the built-ins *)
(* ================================================================== *)

Section PyFacts.

Lemma str_take_length (n : nat) (s : string) :
  String.length (str_take n s) = Nat.min n (String.length s).
Proof.
  revert s; induction n as [|n IH]; intros [|c s]; simpl; auto.
Qed.

Lemma str_drop_length (n : nat) (s : string) :
  String.length (str_drop n s) = (String.length s - n)%nat.
Proof.
  revert s; induction n as [|n IH]; intros [|c s]; simpl; auto.
Qed.

Lemma str_take_drop (n : nat) (s : string) :
  (str_take n s ++ str_drop n s)%string = s.
Proof.
  revert s; induction n as [|n IH]; intros [|c s]; simpl; auto.
  now rewrite IH.
Qed.

Lemma str_take_idem (n : nat) (s : string) :
  str_take n (str_take n s) = str_take n s.
Proof.
  revert s; induction n as [|n IH]; intros [|c s]; simpl; auto.
  now rewrite IH.
Qed.

Lemma str_take_all (n : nat) (s : string) :
  (String.length s <= n)%nat -> str_take n s = s.
Proof.
  revert s; induction n as [|n IH]; intros [|c s]; simpl; auto; try lia.
  intros H. rewrite IH; auto. lia.
Qed.

Lemma append_length (s t : string) :
  String.length (s ++ t)%string = (String.length s + String.length t)%nat.
Proof. induction s; simpl; auto. Qed.

Lemma append_assoc (s t u : string) :
  ((s ++ t) ++ u)%string = (s ++ (t ++ u))%string.
Proof. induction s; simpl; congruence. Qed.


Lemma is_bits_take (n : nat) (s : string) :
  is_bits s = true -> is_bits (str_take n s) = true.
Proof.
  revert s; induction n as [|n IH]; intros [|c s]; simpl; auto.
  intros H. apply andb_prop in H as [Hc Hs]. now rewrite Hc, IH.
Qed.


(** On binary digits [int(s, 2)] is defined and below [2 ^ len(s)]. *)
Lemma int2_digits_bits (s : string) :
  is_bits s = true ->
  forall acc, exists z,
    int2_digits s acc = Some z /\
    acc * 2 ^ len_str s <= z < (acc + 1) * 2 ^ len_str s.
Proof.
  unfold len_str.
  induction s as [|c s IH]; simpl String.length; intros Hb acc.
  - exists acc. simpl. split; [reflexivity | lia].
  - simpl in Hb. apply andb_prop in Hb as [Hc Hs].
    rewrite Nat2Z.inj_succ, Z.pow_succ_r by lia.
    unfold is_bit_char in Hc. simpl int2_digits.
    destruct (Ascii.eqb c "0").
    + destruct (IH Hs (2 * acc)) as (z & Hz & Hr). exists z. split; [exact Hz | nia].
    + simpl in Hc. rewrite Hc.
      destruct (IH Hs (2 * acc + 1)) as (z & Hz & Hr). exists z. split; [exact Hz | nia].
Qed.

Lemma int_base2_bits (s : string) :
  is_bits s = true -> s <> "" ->
  exists z, int_base2 s = ok z /\ 0 <= z < 2 ^ len_str s.
Proof.
  intros Hb Hne.
  destruct (int2_digits_bits s Hb 0) as (z & Hz & Hr).
  exists z. split; [|lia].
  unfold int_base2. destruct s; [congruence|]. now rewrite Hz.
Qed.

Lemma be_bytes_length (n : nat) (z : Z) : List.length (be_bytes n z) = n.
Proof. induction n; simpl; auto. Qed.

Example int_base2_101 : int_base2 "101" = ok 5.
Proof. reflexivity. Qed.

Example int_base2_not_binary :
  int_base2 "102" = raise (ValueError "invalid literal for int() with base 2").
Proof. reflexivity. Qed.

Example to_bytes_big_258 : to_bytes_big 258 2 = ok [x01; x02].
Proof. reflexivity. Qed.

Example to_bytes_big_too_big :
  to_bytes_big 256 1 = raise (OverflowError "int too big to convert").
Proof. reflexivity. Qed.

Example int_of_float_truncates :
  int_of_float (- (3 # 2)) = -1 /\ int_of_float (7 # 5) = 1.
Proof. split; reflexivity. Qed.

Example str_prefix_from_end : str_prefix (-1) "abc" = "ab".
Proof. reflexivity. Qed.

Example str_of_outcomes :
  str_opt_int (Some 1) = "1" /\ str_opt_int (Some 0) = "0"
  /\ str_opt_int None = "None".
Proof. repeat split; reflexivity. Qed.

End PyFacts.

(* ================================================================== *)
(** * The AES-GCM pipeline *)
(* ================================================================== *)

Module CryptoFacts.
Import CryptoUtils.

Lemma bits_to_bytes_short (key_bits : string) :
  len_str key_bits < 128 ->
  bits_to_bytes key_bits 16 = raise (ValueError "Not enough key bits").
Proof.
  intros H. unfold bits_to_bytes.
  change (16 * 8) with 128.
  destruct (Z.ltb_spec (len_str key_bits) 128); [reflexivity | lia].
Qed.

Lemma bits_to_bytes_prefix (key_bits : string) :
  128 <= len_str key_bits ->
  bits_to_bytes key_bits 16 = bits_to_bytes (str_take 128 key_bits) 16.
Proof.
  intros H. unfold bits_to_bytes.
  change (16 * 8) with 128. change (Z.to_nat 128) with 128%nat.
  rewrite str_take_idem.
  assert (Hl : len_str (str_take 128 key_bits) = 128).
  { unfold len_str in *. rewrite str_take_length. lia. }
  rewrite Hl.
  destruct (Z.ltb_spec (len_str key_bits) 128); [lia|].
  reflexivity.
Qed.

Lemma bits_to_bytes_ok (key_bits : string) :
  128 <= len_str key_bits ->
  is_bits (str_take 128 key_bits) = true ->
  exists key, bits_to_bytes key_bits 16 = ok key /\ List.length key = 16%nat.
Proof.
  intros Hlen Hbits. unfold bits_to_bytes.
  change (16 * 8) with 128. change (Z.to_nat 128) with 128%nat.
  destruct (Z.ltb_spec (len_str key_bits) 128); [lia|].
  assert (Hl : len_str (str_take 128 key_bits) = 128).
  { unfold len_str in *. rewrite str_take_length. lia. }
  destruct (int_base2_bits (str_take 128 key_bits) Hbits) as (z & Hz & Hr).
  { intros E. rewrite E in Hl. discriminate Hl. }
  rewrite Hz, Hl in *.
  exists (be_bytes 16 z). split; [|apply be_bytes_length].
  unfold ok at 1. cbv beta iota. unfold to_bytes_big.
  destruct (Z.ltb_spec z 0); [lia|].
  change (8 * 16) with 128.
  destruct (Z.leb_spec (2 ^ 128) z); [lia|].
  reflexivity.
Qed.

Lemma AESGCM_128 (key : list byte) :
  List.length key = 16%nat -> AESGCM key = ok key.
Proof. intros H. unfold AESGCM, len. now rewrite H. Qed.

Lemma split_at_length {A} (a b : list A) :
  firstn (List.length a) (a ++ b) = a /\ skipn (List.length a) (a ++ b) = b.
Proof.
  induction a as [|x a [IH1 IH2]]; simpl; [auto|].
  split; [now rewrite IH1 | exact IH2].
Qed.

Lemma nonce_split (w : world) (ct : list byte) :
  let nonce := map (os_tape w) (seq (os_pos w) 12) in
  List.length nonce = 12%nat /\
  firstn 12 (nonce ++ ct) = nonce /\ skipn 12 (nonce ++ ct) = ct.
Proof.
  intros nonce.
  assert (Hn : List.length nonce = 12%nat)
    by (unfold nonce; now rewrite length_map, length_seq).
  split; [exact Hn|].
  rewrite <- Hn. apply split_at_length.
Qed.

Section WithCipher.
Context {L : AESGCM_lib}.

(** Encryption with a usable key: the nonce read from [os.urandom]
    followed by the primitive's output. *)
Lemma encrypt_run (key_bits : string) (key plaintext : list byte) (w : world) :
  bits_to_bytes key_bits 16 = ok key -> List.length key = 16%nat ->
  exists w',
    aesgcm_encrypt_with_bits key_bits plaintext w =
      (ok (map (os_tape w) (seq (os_pos w) 12)
           ++ aes_gcm_encrypt key (map (os_tape w) (seq (os_pos w) 12)) plaintext),
       w')
    /\ KEY_BUFFER w' = KEY_BUFFER w /\ LAST_QKD w' = LAST_QKD w
    /\ py_tape w' = py_tape w /\ py_pos w' = py_pos w.
Proof.
  intros Hk Hl. eexists.
  unfold aesgcm_encrypt_with_bits, bind, lift, os_urandom, ret.
  rewrite Hk. unfold ok at 1. rewrite (AESGCM_128 key Hl). unfold ok at 1.
  split; [reflexivity|]. simpl. auto.
Qed.

Lemma decrypt_run (key_bits : string) (key blob : list byte) (w : world) :
  bits_to_bytes key_bits 16 = ok key -> List.length key = 16%nat ->
  aesgcm_decrypt_with_bits key_bits blob w =
    (aes_gcm_decrypt key (firstn 12 blob) (skipn 12 blob), w).
Proof.
  intros Hk Hl.
  unfold aesgcm_decrypt_with_bits, bind, lift, ret.
  rewrite Hk. unfold ok at 1. rewrite (AESGCM_128 key Hl). unfold ok at 1.
  destruct (aes_gcm_decrypt key (firstn 12 blob) (skipn 12 blob)); reflexivity.
Qed.

(** Decrypting what was just encrypted, for keys that agree on their
    first 128 characters. *)
Lemma encrypt_then_decrypt {C : AESGCM_correct L}
    (k k' : string) (payload : list byte) (w : world) :
  128 <= len_str k -> 128 <= len_str k' ->
  str_take 128 k' = str_take 128 k ->
  is_bits (str_take 128 k) = true ->
  exists secured w',
    aesgcm_encrypt_with_bits k payload w = (ok secured, w') /\
    aesgcm_decrypt_with_bits k' secured w' = (ok payload, w') /\
    KEY_BUFFER w' = KEY_BUFFER w /\ LAST_QKD w' = LAST_QKD w /\
    py_tape w' = py_tape w /\ py_pos w' = py_pos w.
Proof.
  intros Hk Hk' Heq Hbits.
  destruct (bits_to_bytes_ok k Hk Hbits) as (key & Hkey & Hlen).
  assert (Hkey' : bits_to_bytes k' 16 = ok key).
  { rewrite (bits_to_bytes_prefix k' Hk'), Heq, <- (bits_to_bytes_prefix k Hk).
    exact Hkey. }
  destruct (encrypt_run k key payload w Hkey Hlen) as (w' & Henc & Hframe).
  eexists; exists w'. split; [exact Henc|]. split; [|exact Hframe].
  rewrite (decrypt_run k' key _ w' Hkey' Hlen).
  destruct (nonce_split w (aes_gcm_encrypt key (map (os_tape w) (seq (os_pos w) 12)) payload))
    as (Hn & Hf & Hs).
  rewrite Hf, Hs.
  now rewrite (aes_gcm_roundtrip key _ payload Hlen Hn).
Qed.

End WithCipher.

End CryptoFacts.

(** The stand-in cipher meets the law assumed of AES-GCM. *)
#[export] Instance standin_cipher_correct : AESGCM_correct Standin.cipher.
Proof.
  constructor. intros key nonce data Hk Hn.
  simpl. unfold Standin.unscramble, Standin.scramble.
  assert (Ht : List.length (Standin.tag_of key nonce) = 16%nat).
  { unfold Standin.tag_of. rewrite length_firstn, !length_app, repeat_length. lia. }
  rewrite length_app, Ht.
  replace (List.length (rev data) + 16 - 16)%nat with (List.length (rev data)) by lia.
  destruct (Nat.ltb_spec (List.length (rev data) + 16) 16); [lia|].
  destruct (CryptoFacts.split_at_length (rev data) (Standin.tag_of key nonce)) as [Hf Hs].
  rewrite Hs, Hf. unfold Standin.bytes_eqb.
  destruct (list_eq_dec byte_eq_dec (Standin.tag_of key nonce) (Standin.tag_of key nonce));
    [|congruence].
  now rewrite rev_involutive.
Qed.


Lemma bits10_length (n : nat) : String.length (Standin.bits10 n) = n.
Proof.
  induction n as [|n IH]; [reflexivity|].
  change (Standin.bits10 (S n))
    with (String (if Nat.odd (S n) then "1" else "0")%char (Standin.bits10 n)).
  simpl. now rewrite IH.
Qed.

(** C1. AEAD round trip: for every 128-bit chunk and every payload, the
    empty one included, decrypting with the chunk what was encrypted with it
    gives the payload back. *)
Theorem aead_round_trip {L : AESGCM_lib} {C : AESGCM_correct L}
    (chunk : string) (payload : list byte) (w : world) :
  len_str chunk = 128 -> is_bits chunk = true ->
  exists secured w',
    CryptoUtils.aesgcm_encrypt_with_bits chunk payload w = (ok secured, w') /\
    CryptoUtils.aesgcm_decrypt_with_bits chunk secured w' = (ok payload, w').
Proof.
  intros Hlen Hbits.
  destruct (CryptoFacts.encrypt_then_decrypt chunk chunk payload w)
    as (secured & w' & Henc & Hdec & _); try lia; auto.
  - now apply is_bits_take.
  - now exists secured, w'.
Qed.

Lemma aead_round_trip_witness :
  exists secured w',
    CryptoUtils.aesgcm_encrypt_with_bits (L := Standin.cipher) (Standin.bits10 128) [] Standin.start
      = (ok secured, w') /\
    CryptoUtils.aesgcm_decrypt_with_bits (L := Standin.cipher) (Standin.bits10 128) secured w'
      = (ok [], w').
Proof.
  apply (aead_round_trip (L := Standin.cipher) (Standin.bits10 128) [] Standin.start).
  - reflexivity.
  - reflexivity.
Defined.

(** C9. With fewer than 128 key characters both operations raise the
    key-derivation error at once: the result is that error, no nonce is
    read and the state is untouched, whatever the cipher and the input. *)
Theorem short_key_rejected {L : AESGCM_lib}
    (key_bits : string) (input : list byte) (w : world) :
  len_str key_bits < 128 ->
  CryptoUtils.aesgcm_encrypt_with_bits key_bits input w
    = (raise (ValueError "Not enough key bits"), w) /\
  CryptoUtils.aesgcm_decrypt_with_bits key_bits input w
    = (raise (ValueError "Not enough key bits"), w).
Proof.
  intros H.
  unfold CryptoUtils.aesgcm_encrypt_with_bits, CryptoUtils.aesgcm_decrypt_with_bits,
    bind, lift.
  rewrite (CryptoFacts.bits_to_bytes_short key_bits H). split; reflexivity.
Qed.

Lemma short_key_rejected_witness :
  CryptoUtils.aesgcm_encrypt_with_bits (L := Standin.cipher) (Standin.bits10 127) [x01] Standin.start
    = (raise (ValueError "Not enough key bits"), Standin.start) /\
  CryptoUtils.aesgcm_decrypt_with_bits (L := Standin.cipher) (Standin.bits10 127) [x01] Standin.start
    = (raise (ValueError "Not enough key bits"), Standin.start).
Proof.
  apply (short_key_rejected (L := Standin.cipher) (Standin.bits10 127) [x01] Standin.start).
  reflexivity.
Defined.

(** C10. Only the first 128 bits of a longer bit string are used: both
    operations behave as with the 128-bit prefix, encryption is not
    refused, and decryption succeeds under any other string with the same
    first 128 bits. *)
Theorem key_prefix_only {L : AESGCM_lib} {C : AESGCM_correct L} (k : string) :
  128 <= len_str k -> is_bits k = true ->
  (forall p w, CryptoUtils.aesgcm_encrypt_with_bits k p w
               = CryptoUtils.aesgcm_encrypt_with_bits (str_take 128 k) p w) /\
  (forall c w, CryptoUtils.aesgcm_decrypt_with_bits k c w
               = CryptoUtils.aesgcm_decrypt_with_bits (str_take 128 k) c w) /\
  (forall k' p w, 128 <= len_str k' -> str_take 128 k' = str_take 128 k ->
     exists secured w',
       CryptoUtils.aesgcm_encrypt_with_bits k p w = (ok secured, w') /\
       CryptoUtils.aesgcm_decrypt_with_bits k' secured w' = (ok p, w')).
Proof.
  intros Hlen Hbits. repeat split.
  - intros p w.
    unfold CryptoUtils.aesgcm_encrypt_with_bits.
    now rewrite (CryptoFacts.bits_to_bytes_prefix k Hlen).
  - intros c w.
    unfold CryptoUtils.aesgcm_decrypt_with_bits.
    now rewrite (CryptoFacts.bits_to_bytes_prefix k Hlen).
  - intros k' p w Hk' Heq.
    destruct (CryptoFacts.encrypt_then_decrypt k k' p w Hlen Hk' Heq)
      as (secured & w' & Henc & Hdec & _).
    + now apply is_bits_take.
    + now exists secured, w'.
Qed.

Lemma key_prefix_only_witness :
  CryptoUtils.aesgcm_encrypt_with_bits (L := Standin.cipher)
    (Standin.bits10 130) [x01] Standin.start
  = CryptoUtils.aesgcm_encrypt_with_bits (L := Standin.cipher)
      (str_take 128 (Standin.bits10 130)) [x01] Standin.start.
Proof.
  apply (key_prefix_only (L := Standin.cipher) (Standin.bits10 130)).
  - vm_compute. discriminate.
  - reflexivity.
Defined.

(* ================================================================== *)
(** * Running monadic code *)
(* ================================================================== *)

Lemma bind_ok_run {A B} (m : M A) (f : A -> M B) (w : world) {a : A} {w1 : world} :
  m w = (ok a, w1) -> bind m f w = f a w1.
Proof. intros E. unfold bind. now rewrite E. Qed.

Lemma bind_raise_run {A B} (m : M A) (f : A -> M B) (w : world) {e : exn} {w1 : world} :
  m w = (raise e, w1) -> bind m f w = (raise e, w1).
Proof. intros E. unfold bind. now rewrite E. Qed.

(** Advance past a bind whose first computation is known to return. *)
Ltac run E := rewrite (bind_ok_run _ _ _ E); cbv beta.

Section MonadFacts.

Lemma rng_only_refl (w : world) : rng_only w w.
Proof. unfold rng_only; auto 10. Qed.

Lemma rng_only_trans (w1 w2 w3 : world) :
  rng_only w1 w2 -> rng_only w2 w3 -> rng_only w1 w3.
Proof.
  unfold rng_only. intros (a1 & a2 & a3 & a4 & a5 & a6) (b1 & b2 & b3 & b4 & b5 & b6).
  repeat split; congruence.
Qed.

Lemma sample_ok_rng_only (w w' : world) :
  rng_only w w' -> sample_ok w -> sample_ok w'.
Proof.
  intros (_ & _ & Ht & _) H i n k Hk. rewrite Ht. now apply H.
Qed.

Lemma next_draw_run (w : world) :
  exists w', next_draw w = (ok (py_tape w (py_pos w)), w') /\ rng_only w w'.
Proof.
  eexists. split; [reflexivity|]. unfold rng_only; simpl; auto 10.
Qed.

Lemma random_randint01_run (w : world) :
  exists b w', random_randint01 w = (ok b, w') /\ (b = 0 \/ b = 1) /\ rng_only w w'.
Proof.
  destruct (next_draw_run w) as (w' & E & R).
  exists (Z.b2z (as_randint01 (py_tape w (py_pos w)))), w'.
  unfold random_randint01. rewrite (bind_ok_run _ _ _ E).
  split; [reflexivity|]. split; [|exact R].
  destruct (as_randint01 _); auto.
Qed.

Lemma random_choice2_run {A} (x y : A) (w : world) :
  exists c w', random_choice2 x y w = (ok c, w') /\ rng_only w w'.
Proof.
  destruct (next_draw_run w) as (w' & E & R).
  eexists; exists w'.
  unfold random_choice2. rewrite (bind_ok_run _ _ _ E).
  split; [reflexivity | exact R].
Qed.

Lemma random_random_run (w : world) :
  exists u w', random_random w = (ok u, w') /\ rng_only w w'.
Proof.
  destruct (next_draw_run w) as (w' & E & R).
  eexists; exists w'.
  unfold random_random. rewrite (bind_ok_run _ _ _ E).
  split; [reflexivity | exact R].
Qed.

Lemma np_random_rand_run (n : Z) (w : world) :
  0 <= n ->
  exists l w', np_random_rand n w = (ok l, w') /\
               List.length l = Z.to_nat n /\ rng_only w w'.
Proof.
  intros Hn. unfold np_random_rand.
  destruct (Z.ltb_spec n 0); [lia|].
  eexists; eexists. split; [reflexivity|].
  split; [now rewrite length_map, length_seq|].
  unfold rng_only; simpl; auto 10.
Qed.

Lemma comprehension_cons {A B} (f : A -> M B) (x : A) (xs : list A) :
  comprehension f (x :: xs)
  = (y <- f x ;; ys <- comprehension f xs ;; ret (y :: ys)).
Proof. reflexivity. Qed.

Lemma comprehension_if_cons {A} (p : A -> M bool) (x : A) (xs : list A) :
  comprehension_if p (x :: xs)
  = (b <- p x ;; ys <- comprehension_if p xs ;; ret (if b then x :: ys else ys)).
Proof. reflexivity. Qed.

Lemma for_each_cons {A S} (body : A -> S -> M S) (x : A) (xs : list A) (acc : S) :
  for_each (x :: xs) body acc = (acc' <- body x acc ;; for_each xs body acc').
Proof. reflexivity. Qed.

(** A comprehension whose element computation always returns. *)
Lemma comprehension_run {A B} (f : A -> M B) (P : B -> Prop) (xs : list A) :
  (forall x w, exists y w', f x w = (ok y, w') /\ P y /\ rng_only w w') ->
  forall w, exists ys w',
    comprehension f xs w = (ok ys, w') /\
    List.length ys = List.length xs /\ Forall P ys /\ rng_only w w'.
Proof.
  intros Hf. induction xs as [|x xs IH]; intros w.
  - exists [], w. repeat split; auto using rng_only_refl.
  - destruct (Hf x w) as (y & w1 & E1 & Py & R1).
    destruct (IH w1) as (ys & w2 & E2 & Hl & HP & R2).
    exists (y :: ys), w2. rewrite comprehension_cons.
    rewrite (bind_ok_run _ _ _ E1), (bind_ok_run _ _ _ E2).
    split; [reflexivity|]. split; [simpl; congruence|].
    split; [now constructor | eapply rng_only_trans; eauto].
Qed.

(** A comprehension that only reads. *)
Lemma comprehension_pure {A B} (f : A -> M B) (g : A -> B) (xs : list A) (w : world) :
  (forall x, In x xs -> f x w = (ok (g x), w)) ->
  comprehension f xs w = (ok (map g xs), w).
Proof.
  induction xs as [|x xs IH]; intros Hf; [reflexivity|].
  rewrite comprehension_cons.
  rewrite (bind_ok_run _ _ _ (Hf x (or_introl eq_refl))).
  rewrite (bind_ok_run _ _ _ (IH (fun y Hy => Hf y (or_intror Hy)))).
  reflexivity.
Qed.

Lemma comprehension_if_pure {A} (p : A -> M bool) (q : A -> bool) (xs : list A) (w : world) :
  (forall x, In x xs -> p x w = (ok (q x), w)) ->
  comprehension_if p xs w = (ok (filter q xs), w).
Proof.
  induction xs as [|x xs IH]; intros Hp; [reflexivity|].
  rewrite comprehension_if_cons.
  rewrite (bind_ok_run _ _ _ (Hp x (or_introl eq_refl))).
  rewrite (bind_ok_run _ _ _ (IH (fun y Hy => Hp y (or_intror Hy)))).
  simpl. now destruct (q x).
Qed.

Lemma getitem_ok {A} (l : list A) (i : nat) (d : A) :
  (i < List.length l)%nat -> getitem l i = ok (nth i l d).
Proof.
  intros H. unfold getitem.
  now rewrite (nth_error_nth' l d H).
Qed.

Lemma list_set_length {A} (l : list A) (i : nat) (v : A) :
  List.length (list_set l i v) = List.length l.
Proof.
  revert i; induction l as [|x l IH]; intros [|i]; simpl; auto.
Qed.

Lemma list_set_same {A} (l : list A) (i : nat) (v : A) :
  (i < List.length l)%nat -> nth_error (list_set l i v) i = Some v.
Proof.
  revert i; induction l as [|x l IH]; intros [|i] H; simpl in *; try lia; auto.
  apply IH. lia.
Qed.

Lemma list_set_other {A} (l : list A) (i j : nat) (v : A) :
  i <> j -> nth_error (list_set l i v) j = nth_error l j.
Proof.
  revert i j; induction l as [|x l IH]; intros [|i] [|j] H; simpl; auto; try congruence.
Qed.

Lemma setitem_ok {A} (l : list A) (i : nat) (v : A) :
  (i < List.length l)%nat -> setitem l i v = ok (list_set l i v).
Proof.
  intros H. unfold setitem.
  destruct (Nat.ltb_spec i (List.length l)); [reflexivity | lia].
Qed.

End MonadFacts.

(* ================================================================== *)
(** * The BB84 session *)
(* ================================================================== *)

Module SimFacts.
Import QuantumSim View.

Lemma lift_getitem_run {A} (l : list A) (i : nat) (d : A) (w : world) :
  (i < List.length l)%nat -> lift (getitem l i) w = (ok (nth i l d), w).
Proof. intros H. unfold lift. now rewrite (getitem_ok l i d H). Qed.

Lemma lift_setitem_run {A} (l : list A) (i : nat) (v : A) (w : world) :
  (i < List.length l)%nat -> lift (setitem l i v) w = (ok (list_set l i v), w).
Proof. intros H. unfold lift. now rewrite (setitem_ok l i v H). Qed.

Lemma random_bits_run (n : Z) (w : world) :
  exists l w', random_bits n w = (ok l, w') /\
               List.length l = Z.to_nat n /\ Forall is_bit l /\ rng_only w w'.
Proof.
  destruct (comprehension_run (fun _ : nat => random_randint01) is_bit (range n))
    with (w := w) as (l & w' & E & Hl & HP & R).
  { intros _ w0. destruct (random_randint01_run w0) as (b & w1 & E & Hb & R).
    now exists b, w1. }
  exists l, w'. unfold range in Hl. rewrite length_seq in Hl. auto.
Qed.

Lemma random_bases_run (n : Z) (w : world) :
  exists l w', random_bases n w = (ok l, w') /\
               List.length l = Z.to_nat n /\ rng_only w w'.
Proof.
  destruct (comprehension_run (fun _ : nat => random_choice2 "Z" "X")
              (fun _ => True) (range n))
    with (w := w) as (l & w' & E & Hl & _ & R).
  { intros _ w0. destruct (random_choice2_run "Z" "X" w0) as (c & w1 & E & R).
    now exists c, w1. }
  exists l, w'. unfold range in Hl. rewrite length_seq in Hl. auto.
Qed.

Lemma lxor_bit (b : Z) : is_bit b -> is_bit (Z.lxor b 1).
Proof. intros [-> | ->]; [right | left]; reflexivity. Qed.

Section Measurement.
Variables (a_bits : list Z) (a_bases : list string) (arrives : list bool)
          (b_bases : list string) (error_prob : Q) (m : nat).
Hypothesis len_a_bits : List.length a_bits = m.
Hypothesis len_a_bases : List.length a_bases = m.
Hypothesis len_arrives : List.length arrives = m.
Hypothesis len_b_bases : List.length b_bases = m.
Hypothesis bits_a_bits : Forall is_bit a_bits.

(** One iteration writes position [i], and writes a bit there when the
    photon is kept by sifting. *)
Lemma measure_run (i : nat) (b_results : list (option Z)) (w : world) :
  (i < m)%nat -> List.length b_results = m ->
  exists v w',
    measure a_bits a_bases arrives b_bases error_prob i b_results w
      = (ok (list_set b_results i v), w') /\
    rng_only w w' /\
    (kept a_bases arrives b_bases i = true -> is_some_bit v).
Proof.
  intros Hi Hbr. unfold measure, kept.
  run (lift_getitem_run arrives i false w ltac:(lia)).
  destruct (nth i arrives false); cbv beta iota delta [negb].
  - run (lift_getitem_run a_bases i "" w ltac:(lia)).
    run (lift_getitem_run b_bases i "" w ltac:(lia)).
    destruct (String.eqb (nth i a_bases "") (nth i b_bases "")).
    + run (lift_getitem_run a_bits i 0 w ltac:(lia)).
      destruct (random_random_run w) as (u & w' & E & R).
      run E. cbv zeta.
      eexists; exists w'. split; [apply lift_setitem_run; lia|].
      split; [exact R|]. intros _.
      assert (Hb : is_bit (nth i a_bits 0)).
      { apply (proj1 (Forall_forall _ _) bits_a_bits), nth_In. lia. }
      assert (Hx := lxor_bit _ Hb).
      destruct (flt u error_prob);
        [destruct Hx as [-> | ->] | destruct Hb as [-> | ->]];
        unfold is_some_bit; auto.
    + destruct (random_randint01_run w) as (r & w' & E & Hr & R).
      run E.
      eexists; exists w'. split; [apply lift_setitem_run; lia|].
      split; [exact R|]. simpl. discriminate.
  - exists None, w. split; [apply lift_setitem_run; lia|].
    split; [apply rng_only_refl|]. simpl. discriminate.
Qed.

(** The measurement loop over any list of valid indices. *)
Lemma measure_loop (idxs : list nat) :
  Forall (fun i => (i < m)%nat) idxs ->
  forall (b_results : list (option Z)) (w : world),
    List.length b_results = m ->
    exists br' w',
      for_each idxs (measure a_bits a_bases arrives b_bases error_prob) b_results w
        = (ok br', w') /\
      List.length br' = m /\ rng_only w w' /\
      (forall i, In i idxs -> kept a_bases arrives b_bases i = true ->
                 exists v, nth_error br' i = Some v /\ is_some_bit v) /\
      (forall i, ~ In i idxs -> nth_error br' i = nth_error b_results i).
Proof.
  induction idxs as [|j idxs IH]; intros Hidx br w Hbr.
  - exists br, w. split; [reflexivity|]. split; [exact Hbr|].
    split; [apply rng_only_refl|]. split; [intros i []|auto].
  - apply Forall_cons_iff in Hidx as [Hj Hrest].
    destruct (measure_run j br w Hj Hbr) as (v & w1 & E1 & R1 & Hv).
    destruct (IH Hrest (list_set br j v) w1) as (br' & w2 & E2 & Hl & R2 & Hin & Hout).
    { now rewrite list_set_length. }
    exists br', w2. rewrite for_each_cons. run E1.
    split; [exact E2|]. split; [exact Hl|].
    split; [eapply rng_only_trans; eauto|]. split.
    + intros i [<- | Hi] Hk.
      * destruct (in_dec Nat.eq_dec j idxs) as [Hi | Hni]; [now apply Hin|].
        exists v. split; [|now apply Hv].
        rewrite (Hout j Hni). apply list_set_same. lia.
      * now apply Hin.
    + intros i Hni. rewrite Hout by (intros Hi; apply Hni; now right).
      apply list_set_other. intros ->. apply Hni. now left.
Qed.

(** Sifting only reads, and selects the kept indices. *)
Lemma sifting_run (idxs : list nat) (w : world) :
  Forall (fun i => (i < m)%nat) idxs ->
  comprehension_if (is_sifted a_bases arrives b_bases) idxs w
  = (ok (filter (kept a_bases arrives b_bases) idxs), w).
Proof.
  clear len_a_bits bits_a_bits.
  intros Hidx. apply comprehension_if_pure. intros i Hi.
  assert (Him : (i < m)%nat) by (apply (proj1 (Forall_forall _ _) Hidx); exact Hi).
  unfold is_sifted, kept.
  run (lift_getitem_run arrives i false w ltac:(lia)).
  destruct (nth i arrives false); [|reflexivity].
  run (lift_getitem_run a_bases i "" w ltac:(lia)).
  run (lift_getitem_run b_bases i "" w ltac:(lia)).
  reflexivity.
Qed.

End Measurement.

Lemma gather_run {A} (l : list A) (d : A) (idxs : list nat) (w : world) :
  Forall (fun i => (i < List.length l)%nat) idxs ->
  comprehension (fun i => lift (getitem l i)) idxs w
  = (ok (map (fun i => nth i l d) idxs), w).
Proof.
  intros Hidx. apply comprehension_pure. intros i Hi.
  apply lift_getitem_run. apply (proj1 (Forall_forall _ _) Hidx). exact Hi.
Qed.

(** ** Arithmetic of the estimate *)

Lemma int_of_float_nonneg (x : Q) : (0 <= x)%Q -> int_of_float x = Qfloor x.
Proof.
  destruct x as [a b]. unfold Qle, int_of_float, Qfloor. simpl.
  intros H. apply Z.quot_div_nonneg; lia.
Qed.

Lemma fmax_Qmax (x y : Q) : (fmax x y == Qmax x y)%Q.
Proof.
  unfold fmax, flt.
  destruct (Qle_bool y x) eqn:E; simpl.
  - apply Qle_bool_iff in E. symmetry. now apply Q.max_l.
  - assert (H : ~ (y <= x)%Q) by (rewrite <- Qle_bool_iff; congruence).
    symmetry. apply Q.max_r. apply Qnot_le_lt in H. now apply Qlt_le_weak.
Qed.

Lemma fmax_lower (x y : Q) : (x <= fmax x y)%Q.
Proof. rewrite fmax_Qmax. apply Q.le_max_l. Qed.

Lemma fmax_upper (x y z : Q) : (x <= z)%Q -> (y <= z)%Q -> (fmax x y <= z)%Q.
Proof. intros. rewrite fmax_Qmax. now apply Q.max_lub. Qed.

Lemma fifth_nonneg (k : Z) : 0 <= k -> (0 <= (2 # 10) * inject_Z k)%Q.
Proof.
  intros H. apply Qmult_le_0_compat; [discriminate|].
  change 0%Q with (inject_Z 0). now rewrite <- Zle_Qle.
Qed.

Lemma fifth_floor_le (k : Z) : 0 <= k -> Qfloor ((2 # 10) * inject_Z k) <= k.
Proof.
  intros H. rewrite <- (Qfloor_Z k) at 2. apply Qfloor_resp_le.
  assert (Hk : (0 <= inject_Z k)%Q)
    by (change 0%Q with (inject_Z 0); now rewrite <- Zle_Qle).
  lra.
Qed.

Lemma sample_size_code (a_sift : list Z) :
  match a_sift with
  | [] => 0
  | _ => Z.max 1 (int_of_float ((2 # 10) * inject_Z (len a_sift)))
  end = sample_size_floor (len a_sift).
Proof.
  unfold sample_size_floor.
  destruct a_sift as [|a l]; [reflexivity|].
  assert (H : 0 < len (a :: l)) by (unfold len; simpl List.length; lia).
  destruct (Z.eqb_spec (len (a :: l)) 0); [lia|].
  rewrite int_of_float_nonneg; [reflexivity | apply fifth_nonneg; lia].
Qed.

Lemma sample_size_range (k : Z) :
  0 < k -> 1 <= sample_size_floor k <= k.
Proof.
  intros H. unfold sample_size_floor.
  destruct (Z.eqb_spec k 0); [lia|].
  pose proof (fifth_floor_le k ltac:(lia)). lia.
Qed.

(** ** The sampling block *)

Lemma for_each_frame {A S} (body : A -> S -> M S) (xs : list A) :
  (forall x acc w, snd (body x acc w) = w) ->
  forall acc w, snd (for_each xs body acc w) = w.
Proof.
  intros Hb. induction xs as [|x xs IH]; intros acc w; [reflexivity|].
  rewrite for_each_cons. unfold bind. specialize (Hb x acc w).
  destruct (body x acc w) as [[e | acc'] w1]; simpl in Hb; subst w1;
    [reflexivity | apply IH].
Qed.

Lemma count_errors_frame (a_sift : list Z) (b_sift : list (option Z))
    (idx : list nat) (w : world) :
  snd (count_errors a_sift b_sift idx w) = w.
Proof.
  unfold count_errors. apply for_each_frame. intros k acc w0.
  unfold bind, lift, ret.
  destruct (getitem a_sift k); [reflexivity|].
  destruct (getitem b_sift k); reflexivity.
Qed.

Lemma count_errors_run (a_sift : list Z) (b_sift : list (option Z)) (w : world)
    (idx : list nat) :
  List.length b_sift = List.length a_sift ->
  Forall (fun k => (k < List.length a_sift)%nat) idx ->
  forall acc,
    for_each idx
      (fun k acc =>
         x <- lift (getitem a_sift k) ;;
         y <- lift (getitem b_sift k) ;;
         ret (if int_ne x y then acc + 1 else acc)) acc w
    = (ok (acc + len (filter (mismatch a_sift b_sift) idx)), w).
Proof.
  intros Hlen. induction idx as [|k idx IH]; intros Hidx acc.
  - simpl. unfold ret, len. simpl. now rewrite Z.add_0_r.
  - apply Forall_cons_iff in Hidx as [Hk Hrest].
    rewrite for_each_cons.
    assert (E : (x <- lift (getitem a_sift k) ;;
                 y <- lift (getitem b_sift k) ;;
                 ret (if int_ne x y then acc + 1 else acc)) w
                = (ok (if mismatch a_sift b_sift k then acc + 1 else acc), w)).
    { run (lift_getitem_run a_sift k 0 w Hk).
      run (lift_getitem_run b_sift k None w ltac:(lia)).
      reflexivity. }
    run E. rewrite (IH Hrest). simpl filter.
    destruct (mismatch a_sift b_sift k); unfold len, ok; simpl List.length;
      do 2 f_equal; lia.
Qed.

Lemma filter_length_le {A} (p : A -> bool) (l : list A) :
  (List.length (filter p l) <= List.length l)%nat.
Proof.
  induction l as [|x l IH]; simpl; [lia|]. destruct (p x); simpl; lia.
Qed.

Lemma random_sample_range_run (n k : Z) (w : world) :
  0 <= k <= n ->
  exists w',
    random_sample_range n k w
    = (ok (as_sample (py_tape w (py_pos w)) (Z.to_nat n) (Z.to_nat k)), w') /\
    rng_only w w'.
Proof.
  intros H. unfold random_sample_range.
  destruct (Z.ltb_spec k 0); [lia|].
  destruct (Z.ltb_spec n k); [lia|]. cbv beta iota delta [orb].
  destruct (next_draw_run w) as (w' & E & R).
  exists w'. run E. split; [reflexivity | exact R].
Qed.

Lemma random_sample_range_frame (n k : Z) (w : world) :
  rng_only w (snd (random_sample_range n k w)).
Proof.
  unfold random_sample_range.
  destruct ((k <? 0) || (n <? k))%bool; [apply rng_only_refl|].
  destruct (next_draw_run w) as (w' & E & R).
  run E. exact R.
Qed.

(** With a sampler that honours its contract the block always returns. *)
Lemma estimate_qber_total (a_sift : list Z) (b_sift : list (option Z)) (w : world) :
  sample_ok w -> List.length b_sift = List.length a_sift ->
  exists size idx errs q w',
    estimate_qber a_sift b_sift w = (ok (size, idx, errs, q), w') /\
    rng_only w w' /\ sampled a_sift b_sift size idx errs q.
Proof.
  intros Hs Hlen. unfold estimate_qber. cbv zeta. rewrite sample_size_code.
  assert (Hcases : a_sift = [] \/ 0 < len a_sift).
  { destruct a_sift; [now left | right]. unfold len. simpl List.length. lia. }
  destruct Hcases as [-> | Hk].
  - exists 0, None, None, 0%Q, w. split; [reflexivity|].
    split; [apply rng_only_refl|]. split; [reflexivity | auto].
  - pose proof (sample_size_range (len a_sift) Hk) as Hr.
    destruct (Z.ltb_spec 0 (sample_size_floor (len a_sift))); [|lia].
    destruct (Z.leb_spec (sample_size_floor (len a_sift)) (len a_sift)); [|lia].
    cbv beta iota delta [andb].
    destruct (random_sample_range_run (len a_sift) (sample_size_floor (len a_sift)) w)
      as (w' & E & R); [lia|].
    run E.
    destruct (Hs (py_pos w) (Z.to_nat (len a_sift))
                (Z.to_nat (sample_size_floor (len a_sift))) ltac:(lia))
      as (Hl1 & Hl2 & Hl3).
    remember (as_sample (py_tape w (py_pos w)) (Z.to_nat (len a_sift))
                (Z.to_nat (sample_size_floor (len a_sift)))) as l eqn:El.
    assert (Hl3' : Forall (fun j => (j < List.length a_sift)%nat) l).
    { unfold len in Hl3 at 1. now rewrite Nat2Z.id in Hl3. }
    cbv beta.
    assert (Ec : count_errors a_sift b_sift l w'
                 = (ok (len (filter (mismatch a_sift b_sift) l)), w')).
    { unfold count_errors. now rewrite (count_errors_run a_sift b_sift w' l Hlen Hl3' 0). }
    run Ec.
    assert (Ed : lift (truediv (len (filter (mismatch a_sift b_sift) l))
                         (sample_size_floor (len a_sift))) w'
                 = (ok (inject_Z (len (filter (mismatch a_sift b_sift) l))
                        / inject_Z (sample_size_floor (len a_sift)))%Q, w')).
    { unfold lift, truediv.
      destruct (Z.eqb_spec (sample_size_floor (len a_sift)) 0); [lia | reflexivity]. }
    run Ed.
    eexists; eexists; eexists; eexists; exists w'.
    split; [reflexivity|]. split; [exact R|].
    split; [reflexivity|].
    assert (Hsz : len l = sample_size_floor (len a_sift)).
    { unfold len at 1. rewrite Hl1. lia. }
    clear El E Ec Ed.
    destruct a_sift as [|a a_sift]; [unfold len in Hk; simpl in Hk; lia|].
    exists l. repeat split; auto.
Qed.

(** Whatever the sampler returns, the block touches nothing but the
    tape positions. *)
Lemma estimate_qber_frame (a_sift : list Z) (b_sift : list (option Z)) (w : world) :
  rng_only w (snd (estimate_qber a_sift b_sift w)).
Proof.
  unfold estimate_qber. cbv zeta.
  destruct ((0 <? _) && (_ <=? len a_sift))%bool; [|apply rng_only_refl].
  unfold bind at 1.
  pose proof (random_sample_range_frame (len a_sift)
                match a_sift with
                | [] => 0
                | _ :: _ => Z.max 1 (int_of_float ((2 # 10) * inject_Z (len a_sift)))
                end w) as R.
  destruct (random_sample_range _ _ w) as [[e | idx] w1]; simpl in R; [exact R|].
  unfold bind at 1.
  pose proof (count_errors_frame a_sift b_sift idx w1) as Hc.
  destruct (count_errors _ _ _ w1) as [[e | errs] w2]; simpl in Hc; subst w2;
    [exact R|].
  unfold bind, lift, ret. destruct (truediv _ _); exact R.
Qed.

(** ** The key string *)

Lemma str_prefix_nonneg (k : Z) (s : string) :
  0 <= k -> str_prefix k s = str_take (Z.to_nat k) s.
Proof. intros H. unfold str_prefix. destruct (Z.ltb_spec k 0); [lia | reflexivity]. Qed.

Lemma key_of_bits (l : list (option Z)) :
  Forall is_some_bit l ->
  is_bits (join (map str_opt_int l)) = true /\
  String.length (join (map str_opt_int l)) = List.length l.
Proof.
  induction 1 as [|v l Hv _ [IH1 IH2]]; [split; reflexivity|].
  simpl. destruct Hv as [-> | ->]; simpl; rewrite IH1, IH2; split; reflexivity.
Qed.

Lemma filter_seq_length (p : nat -> bool) (a n : nat) :
  (List.length (filter p (seq a n)) <= n)%nat.
Proof.
  pose proof (filter_length_le p (seq a n)) as H. now rewrite length_seq in H.
Qed.

(** ** From the photons to the sifted lists *)

Section WithNumpy.
Context {N : Numpy_lib}.

Lemma exchange_run (n : Z) (tp ep : Q) (w : world) :
  0 <= n ->
  exists a_bits a_bases arrives b_bases b_results w1,
    rng_only w w1 /\
    let sifted := filter (kept a_bases arrives b_bases) (range n) in
    let a_sift := map (fun i => nth i a_bits 0) sifted in
    let b_sift := map (fun i => nth i b_results None) sifted in
    Forall is_some_bit b_sift /\
    transmit_bb84_locals n tp ep w
    = estimate_and_distill a_bits a_bases arrives b_bases b_results sifted
        a_sift b_sift w1.
Proof.
  intros Hn. unfold transmit_bb84_locals.
  destruct (random_bits_run n w) as (a_bits & w1 & E1 & L1 & B1 & R1). run E1.
  destruct (random_bases_run n w1) as (a_bases & w2 & E2 & L2 & R2). run E2.
  destruct (np_random_rand_run n w2 Hn) as (rand & w3 & E3 & L3 & R3). run E3.
  cbv zeta.
  set (arrives := map (fun u => flt u tp) rand).
  assert (La : List.length arrives = Z.to_nat n)
    by (unfold arrives; now rewrite length_map).
  destruct (random_bases_run n w3) as (b_bases & w4 & E4 & L4 & R4). run E4.
  assert (Hrange : Forall (fun i => (i < Z.to_nat n)%nat) (range n)).
  { apply Forall_forall. intros i Hi. unfold range in Hi.
    apply in_seq in Hi. lia. }
  destruct (measure_loop a_bits a_bases arrives b_bases ep (Z.to_nat n)
              L1 L2 La L4 B1 (range n) Hrange
              (repeat None (Z.to_nat n)) w4 (repeat_length _ _))
    as (br & w5 & E5 & L5 & R5 & Hin & _).
  run E5.
  run (sifting_run a_bases arrives b_bases (Z.to_nat n) L2 La L4 (range n) w5 Hrange).
  set (sifted := filter (kept a_bases arrives b_bases) (range n)).
  assert (Hsift : Forall (fun i => (i < Z.to_nat n)%nat) sifted).
  { apply Forall_forall. intros i Hi. apply filter_In in Hi as [Hi _].
    apply (proj1 (Forall_forall _ _) Hrange). exact Hi. }
  run (gather_run a_bits 0 sifted w5 ltac:(now rewrite L1)).
  run (gather_run br None sifted w5 ltac:(now rewrite L5)).
  exists a_bits, a_bases, arrives, b_bases, br, w5.
  split.
  { repeat (eapply rng_only_trans; [eassumption|]). apply rng_only_refl. }
  cbv zeta. fold sifted. split; [|reflexivity].
  apply Forall_forall. intros v Hv. apply in_map_iff in Hv as (i & <- & Hi).
  apply filter_In in Hi as [Hi Hk].
  destruct (Hin i Hi Hk) as (v & Hv & Hb).
  now rewrite (nth_error_nth _ _ None Hv).
Qed.

(** A negative photon count is refused by numpy before anything is
    drawn. *)
Lemma transmit_negative (n : Z) (tp ep : Q) (w : world) :
  n < 0 ->
  transmit_bb84_locals n tp ep w
  = (raise (ValueError "negative dimensions are not allowed"), w).
Proof.
  intros Hn. unfold transmit_bb84_locals, random_bits, random_bases, range.
  replace (Z.to_nat n) with 0%nat by lia. simpl comprehension.
  unfold bind at 1. unfold ret at 1. unfold bind at 1. unfold ret at 1.
  unfold bind at 1. unfold np_random_rand.
  destruct (Z.ltb_spec n 0); [reflexivity | lia].
Qed.

(** With a sampler that honours its contract a session of [n >= 0]
    photons returns, and its locals are related as [session_facts] says. *)
Lemma transmit_locals_total (n : Z) (tp ep : Q) (w : world) :
  0 <= n -> sample_ok w ->
  exists f w',
    transmit_bb84_locals n tp ep w = (ok f, w') /\
    rng_only w w' /\ session_facts n f.
Proof.
  intros Hn Hs.
  destruct (exchange_run n tp ep w Hn)
    as (a_bits & a_bases & arrives & b_bases & br & w1 & R1 & Hb & E).
  cbv zeta in Hb, E. rewrite E. unfold estimate_and_distill.
  destruct (estimate_qber_total
              (map (fun i => nth i a_bits 0) (filter (kept a_bases arrives b_bases) (range n)))
              (map (fun i => nth i br None) (filter (kept a_bases arrives b_bases) (range n)))
              w1)
    as (size & idx & errs & q & w2 & E2 & R2 & Hsam).
  { eapply sample_ok_rng_only; eauto. }
  { now rewrite !length_map. }
  run E2. cbv zeta.
  eexists; exists w2. split; [reflexivity|].
  split; [eapply rng_only_trans; eauto|].
  unfold session_facts; simpl. repeat split; auto.
  apply Hsam. apply Hsam.
Qed.

(** Whatever the sampler does, a session touches only the tape
    positions, and a key it returns is a bit string. *)
Lemma transmit_frame (n : Z) (tp ep : Q) (w : world) :
  exists r w',
    transmit_bb84 n tp ep w = (r, w') /\ rng_only w w' /\
    match r with
    | inr res => is_bits (sifted_key res) = true
    | inl _ => True
    end.
Proof.
  unfold transmit_bb84.
  destruct (Z.lt_ge_cases n 0) as [Hn | Hn].
  - rewrite (bind_raise_run _ _ _ (transmit_negative n tp ep w Hn)).
    eexists; exists w. split; [reflexivity|].
    split; [apply rng_only_refl | exact I].
  - destruct (exchange_run n tp ep w Hn)
      as (a_bits & a_bases & arrives & b_bases & br & w1 & R1 & Hb & E).
    cbv zeta in Hb, E. unfold bind at 1. rewrite E. unfold estimate_and_distill.
    unfold bind at 1.
    pose proof (estimate_qber_frame
      (map (fun i => nth i a_bits 0) (filter (kept a_bases arrives b_bases) (range n)))
      (map (fun i => nth i br None) (filter (kept a_bases arrives b_bases) (range n)))
      w1) as R2.
    destruct (estimate_qber _ _ w1) as [[e | [[[size idx] errs] q]] w2]; simpl in R2.
    + eexists; exists w2. split; [reflexivity|].
      split; [eapply rng_only_trans; eauto | exact I].
    + cbv zeta. unfold ret.
      eexists; exists w2. split; [reflexivity|].
      split; [eapply rng_only_trans; eauto|].
      simpl sifted_key. rewrite str_prefix_nonneg by lia.
      apply is_bits_take. now apply key_of_bits.
Qed.

(** ** Entropy and the secure-bit count *)

Lemma bin_entropy_zero : bin_entropy 0 = 0%Q.
Proof. reflexivity. Qed.

Lemma bin_entropy_one : bin_entropy 1 = 0%Q.
Proof. reflexivity. Qed.

Lemma bin_entropy_inside (p : Q) :
  (0 < p)%Q -> (p < 1)%Q ->
  bin_entropy p = (- p * np_log2 p - (1 - p) * np_log2 (1 - p))%Q.
Proof.
  intros H0 H1. unfold bin_entropy.
  destruct (Qle_bool p 0) eqn:E0; [apply Qle_bool_iff in E0; lra|].
  destruct (Qle_bool 1 p) eqn:E1; [apply Qle_bool_iff in E1; lra|].
  reflexivity.
Qed.

Lemma bin_entropy_outside (p : Q) :
  (p <= 0)%Q \/ (1 <= p)%Q -> bin_entropy p = 0%Q.
Proof.
  intros H. unfold bin_entropy.
  destruct (Qle_bool p 0) eqn:E0; [reflexivity|].
  destruct (Qle_bool 1 p) eqn:E1; [reflexivity|].
  destruct H as [H | H]; apply Qle_bool_iff in H; congruence.
Qed.

(** On the unit interval the code's entropy is the Shannon entropy. *)
Lemma bin_entropy_H2 (p : Q) :
  (0 <= p)%Q -> (p <= 1)%Q -> (bin_entropy p == H2 p)%Q.
Proof.
  intros H0 H1. unfold H2.
  destruct (Qeq_bool p 0) eqn:E0.
  { apply Qeq_bool_iff in E0. rewrite bin_entropy_outside; [reflexivity | left; lra]. }
  destruct (Qeq_bool p 1) eqn:E1.
  { apply Qeq_bool_iff in E1. rewrite bin_entropy_outside; [reflexivity | right; lra]. }
  apply Qeq_bool_neq in E0, E1.
  rewrite bin_entropy_inside; [ring | |].
  - destruct (Qlt_le_dec 0 p) as [H | H]; [exact H|].
    exfalso. apply E0. lra.
  - destruct (Qlt_le_dec p 1) as [H | H]; [exact H|].
    exfalso. apply E1. lra.
Qed.

Lemma bin_entropy_nonneg {O : Numpy_ok N} (p : Q) : (0 <= bin_entropy p)%Q.
Proof.
  destruct (Qlt_le_dec 0 p) as [H0 | H0];
    [|rewrite bin_entropy_outside; [lra | now left]].
  destruct (Qlt_le_dec p 1) as [H1 | H1];
    [|rewrite bin_entropy_outside; [lra | now right]].
  rewrite (bin_entropy_inside p H0 H1).
  pose proof (np_log2_nonpos p H0 H1) as La.
  pose proof (np_log2_nonpos (1 - p) ltac:(lra) ltac:(lra)) as Lb.
  assert (Ha : (0 <= p * (- np_log2 p))%Q) by (apply Qmult_le_0_compat; lra).
  assert (Hb : (0 <= (1 - p) * (- np_log2 (1 - p)))%Q)
    by (apply Qmult_le_0_compat; lra).
  lra.
Qed.

Lemma inject_Z_nonneg (k : Z) : 0 <= k -> (0 <= inject_Z k)%Q.
Proof. intros H. change 0%Q with (inject_Z 0). now rewrite <- Zle_Qle. Qed.

(** The code's count is the floor of the rate formula. *)
Lemma R_secure_floor (k : Z) (q : Q) :
  0 <= k ->
  Z.max 0 (int_of_float (inject_Z k * fmax 0 (1 - bin_entropy q - (1 # 10)))%Q)
  = Qfloor (inject_Z k * Qmax 0 (1 - bin_entropy q - (1 # 10)))%Q.
Proof.
  intros Hk.
  pose proof (inject_Z_nonneg k Hk) as Hk'.
  pose proof (fmax_lower 0 (1 - bin_entropy q - (1 # 10))) as Hm.
  assert (Hx : (0 <= inject_Z k * fmax 0 (1 - bin_entropy q - (1 # 10)))%Q)
    by (now apply Qmult_le_0_compat).
  rewrite int_of_float_nonneg by exact Hx.
  rewrite <- fmax_Qmax.
  apply Z.max_r. rewrite <- (Qfloor_Z 0). now apply Qfloor_resp_le.
Qed.

Lemma R_secure_range {O : Numpy_ok N} (k : Z) (q : Q) :
  0 <= k ->
  0 <= Z.max 0 (int_of_float (inject_Z k * fmax 0 (1 - bin_entropy q - (1 # 10)))%Q)
    <= k.
Proof.
  intros Hk. split; [apply Z.le_max_l|].
  rewrite R_secure_floor by exact Hk. rewrite <- fmax_Qmax.
  rewrite <- (Qfloor_Z k) at 2. apply Qfloor_resp_le.
  pose proof (inject_Z_nonneg k Hk) as Hk'.
  pose proof (bin_entropy_nonneg q) as Hh.
  pose proof (fmax_lower 0 (1 - bin_entropy q - (1 # 10))) as Hlo.
  assert (Hup : (fmax 0 (1 - bin_entropy q - (1 # 10)) <= 1)%Q)
    by (apply fmax_upper; lra).
  assert (Hp : (0 <= inject_Z k * (1 - fmax 0 (1 - bin_entropy q - (1 # 10))))%Q)
    by (apply Qmult_le_0_compat; lra).
  lra.
Qed.

(** The estimate is a rate: between 0 and 1. *)
Lemma sampled_qber_range (a_sift : list Z) (b_sift : list (option Z))
    (size : Z) (idx : option (list nat)) (errs : option Z) (q : Q) :
  sampled a_sift b_sift size idx errs q -> (0 <= q)%Q /\ (q <= 1)%Q.
Proof.
  intros [Hsize H]. destruct a_sift as [|a l].
  - destruct H as (_ & _ & ->). split; lra.
  - destruct H as (s & _ & Hlen & _ & _ & _ & ->).
    set (e := len (filter (mismatch (a :: l) b_sift) s)).
    assert (He : 0 <= e <= size).
    { unfold e. rewrite <- Hlen. unfold len.
      pose proof (filter_length_le (mismatch (a :: l) b_sift) s). lia. }
    assert (Hpos : 1 <= size).
    { rewrite Hsize. apply sample_size_range. unfold len. simpl List.length. lia. }
    assert (Hs : (0 < inject_Z size)%Q).
    { change 0%Q with (inject_Z 0). rewrite <- Zlt_Qlt. lia. }
    split.
    + apply Qle_shift_div_l; [exact Hs|]. rewrite Qmult_0_l.
      apply inject_Z_nonneg. lia.
    + apply Qle_shift_div_r; [exact Hs|]. rewrite Qmult_1_l.
      rewrite <- Zle_Qle. lia.
Qed.

End WithNumpy.

End SimFacts.

(** The stand-in logarithm is not positive below one. *)
Lemma log2_chord_aux_lt_1 (fuel : nat) (p : Q) :
  (p < 2)%Q -> (Standin.log2_chord_aux fuel p < 1)%Q.
Proof.
  revert p; induction fuel as [|fuel IH]; intros p Hp;
    cbn [Standin.log2_chord_aux]; destruct (Qle_bool 1 p) eqn:E; try lra.
  pose proof (IH (2 * p)%Q) as H.
  assert (Hn : ~ (1 <= p)%Q) by (rewrite <- Qle_bool_iff; congruence).
  assert (H2p : (2 * p < 2)%Q) by lra.
  specialize (H H2p). lra.
Qed.

#[export] Instance standin_numpy_ok : Numpy_ok Standin.numpy.
Proof.
  constructor. intros p H0 H1.
  change (np_log2 p) with (Standin.log2_chord p). unfold Standin.log2_chord.
  destruct (Pos.size_nat (Qden p)) as [|fuel];
    cbn [Standin.log2_chord_aux]; destruct (Qle_bool 1 p) eqn:E; try lra;
    try (apply Qle_bool_iff in E; lra).
  assert (H2p : (2 * p < 2)%Q) by lra.
  pose proof (log2_chord_aux_lt_1 fuel (2 * p)%Q H2p). lra.
Qed.

Lemma standin_sample_ok (s : string) : sample_ok (Standin.with_buffer s).
Proof.
  intros i n k Hk. simpl. split; [apply length_seq|].
  split; [apply seq_NoDup|].
  apply Forall_forall. intros j Hj. apply in_seq in Hj. lia.
Qed.

Lemma standin_start_sample_ok : sample_ok Standin.start.
Proof. exact (standin_sample_ok ""). Qed.

(* ================================================================== *)
(** * Properties of a session *)
(* ================================================================== *)

Import QuantumSim View.

(** Six photons that all arrive in matching bases, no noise: six sifted
    bits, five of them secure. *)
Example six_photons :
  fst (transmit_bb84 (N := Standin.numpy) 6 1 0 Standin.start)
  = ok (mkSession 6 6 0 5 "01010").
Proof. vm_compute. reflexivity. Qed.

(** C4. For valid parameters a session returns, and its result has
    [sifted <= sent], [secure_bits <= sifted], [0 <= qber <= 1] and a key
    of exactly [secure_bits] characters. *)
Theorem session_result_bounds {N : Numpy_lib} {O : Numpy_ok N}
    (n : Z) (tp ep : Q) (w : world) :
  0 < n -> (0 <= tp <= 1)%Q -> (0 <= ep <= 1)%Q -> sample_ok w ->
  exists res w',
    transmit_bb84 n tp ep w = (ok res, w') /\
    n_sent res = n /\
    n_sifted res <= n_sent res /\
    R_secure_bits res <= n_sifted res /\
    (0 <= qber res <= 1)%Q /\
    len_str (sifted_key res) = R_secure_bits res.
Proof.
  intros Hn _ _ Hs.
  destruct (SimFacts.transmit_locals_total n tp ep w ltac:(lia) Hs)
    as (f & w' & E & _ & Hf).
  destruct Hf as (Hsi & Ha & Hb & Hbits & Hsam & HR & Hkey & Hdemo).
  exists (result_dict n f), w'. unfold transmit_bb84. run E.
  split; [reflexivity|]. unfold result_dict; simpl.
  assert (Hk : 0 <= len (Locals.a_sift f)) by (unfold len; lia).
  pose proof (SimFacts.R_secure_range (len (Locals.a_sift f)) (Locals.qber f) Hk) as HRr.
  rewrite <- HR in HRr.
  split; [reflexivity|]. split.
  { rewrite Ha, Hsi. unfold len, range. rewrite length_map.
    pose proof (SimFacts.filter_seq_length
                  (kept (Locals.a_bases f) (Locals.arrives f) (Locals.b_bases f))
                  0 (Z.to_nat n)). lia. }
  split; [lia|].
  split; [exact (SimFacts.sampled_qber_range _ _ _ _ _ _ Hsam)|].
  rewrite Hdemo, SimFacts.str_prefix_nonneg by lia.
  unfold len_str. rewrite str_take_length, Hkey.
  destruct (SimFacts.key_of_bits _ Hbits) as [_ Hl]. rewrite Hl.
  assert (Hab : List.length (Locals.b_sift f) = List.length (Locals.a_sift f))
    by (rewrite Ha, Hb; now rewrite !length_map).
  unfold len in HRr. lia.
Qed.

Lemma session_result_bounds_witness :
  exists res w',
    transmit_bb84 (N := Standin.numpy) 40 (3 # 4) (1 # 50) Standin.start = (ok res, w') /\
    n_sent res = 40 /\
    n_sifted res <= n_sent res /\
    R_secure_bits res <= n_sifted res /\
    (0 <= qber res <= 1)%Q /\
    len_str (sifted_key res) = R_secure_bits res.
Proof.
  apply (session_result_bounds (N := Standin.numpy) 40 (3 # 4) (1 # 50) Standin.start).
  - reflexivity.
  - split; discriminate.
  - split; discriminate.
  - exact standin_start_sample_ok.
Defined.

(** C5. The secure-bit count of a session is
    [floor(sifted * max(0, 1 - H2(qber) - 0.1))], with [H2] the binary
    entropy and [H2(0) = H2(1) = 0]; at 0 and 1 the code's entropy is 0
    without consulting the logarithm. *)
Theorem secure_bits_formula {N : Numpy_lib} (n : Z) (tp ep : Q) (w : world) :
  0 <= n -> sample_ok w ->
  exists res w',
    transmit_bb84 n tp ep w = (ok res, w') /\
    R_secure_bits res = secure_rate (n_sifted res) (qber res) /\
    H2 0 = 0%Q /\ H2 1 = 0%Q /\
    bin_entropy 0 = 0%Q /\ bin_entropy 1 = 0%Q.
Proof.
  intros Hn Hs.
  destruct (SimFacts.transmit_locals_total n tp ep w Hn Hs)
    as (f & w' & E & _ & Hf).
  destruct Hf as (Hsi & Ha & Hb & Hbits & Hsam & HR & Hkey & Hdemo).
  exists (result_dict n f), w'. unfold transmit_bb84. run E.
  split; [reflexivity|]. unfold result_dict; simpl.
  split; [|repeat split; reflexivity].
  rewrite HR, SimFacts.R_secure_floor by (unfold len; lia).
  unfold secure_rate. apply Qfloor_comp.
  destruct (SimFacts.sampled_qber_range _ _ _ _ _ _ Hsam) as [Hq0 Hq1].
  now rewrite (SimFacts.bin_entropy_H2 (Locals.qber f) Hq0 Hq1).
Qed.

Lemma secure_bits_formula_witness :
  exists res w',
    transmit_bb84 (N := Standin.numpy) 40 (3 # 4) (1 # 50) Standin.start = (ok res, w') /\
    R_secure_bits res = secure_rate (N := Standin.numpy) (n_sifted res) (qber res) /\
    H2 (N := Standin.numpy) 0 = 0%Q /\ H2 (N := Standin.numpy) 1 = 0%Q /\
    bin_entropy (N := Standin.numpy) 0 = 0%Q /\
    bin_entropy (N := Standin.numpy) 1 = 0%Q.
Proof.
  apply (secure_bits_formula (N := Standin.numpy) 40 (3 # 4) (1 # 50) Standin.start).
  - discriminate.
  - exact standin_start_sample_ok.
Defined.

(** C6, as stated, fails: six sifted bits give a sample of one index,
    where rounding a fifth of six upward gives two. *)
Lemma sample_size_is_not_ceiling :
  match fst (transmit_bb84_locals (N := Standin.numpy) 6 1 0 Standin.start) with
  | inr f =>
      0 < len (Locals.a_sift f) /\
      Locals.sample_idx f = Some [0%nat] /\
      Locals.sample_size f <> sample_size_ceil (len (Locals.a_sift f))
  | inl _ => False
  end.
Proof.
  vm_compute. split; [reflexivity|]. split; [reflexivity | discriminate].
Qed.

(** C6, amended. When [sifted > 0] the sample has exactly
    [max(1, floor(0.2 * sifted))] indices of the sifted lists, all
    distinct, and [qber] is the number of sampled positions where sender and
    receiver differ over the sample size; when [sifted = 0], [qber = 0]. *)
Theorem qber_sampling {N : Numpy_lib} (n : Z) (tp ep : Q) (w : world) :
  0 <= n -> sample_ok w ->
  exists f w',
    transmit_bb84_locals n tp ep w = (ok f, w') /\
    Locals.a_sift f
      = map (fun i => nth i (Locals.a_bits f) 0) (Locals.sifted_indices f) /\
    Locals.b_sift f
      = map (fun i => nth i (Locals.b_results f) None) (Locals.sifted_indices f) /\
    (0 < len (Locals.a_sift f) ->
     exists idx,
       Locals.sample_idx f = Some idx /\
       len idx = Z.max 1 (Qfloor ((2 # 10) * inject_Z (len (Locals.a_sift f)))) /\
       Locals.sample_size f = len idx /\
       NoDup idx /\
       Forall (fun k => (k < List.length (Locals.a_sift f))%nat) idx /\
       Locals.qber f
       = (inject_Z (len (filter (mismatch (Locals.a_sift f) (Locals.b_sift f)) idx))
          / inject_Z (len idx))%Q) /\
    (len (Locals.a_sift f) = 0 -> Locals.qber f = 0%Q).
Proof.
  intros Hn Hs.
  destruct (SimFacts.transmit_locals_total n tp ep w Hn Hs)
    as (f & w' & E & _ & Hf).
  destruct Hf as (Hsi & Ha & Hb & Hbits & [Hsize Hsam] & HR & Hkey & Hdemo).
  exists f, w'. split; [exact E|]. split; [exact Ha|]. split; [exact Hb|].
  destruct (Locals.a_sift f) as [|a l] eqn:Ea.
  - split; [unfold len; simpl; lia|]. intros _. apply Hsam.
  - split; [|unfold len; simpl List.length; lia].
    intros Hpos. destruct Hsam as (idx & Hidx & Hlen & Hnd & Hin & _ & Hq).
    exists idx. unfold sample_size_floor in Hsize.
    destruct (Z.eqb_spec (len (a :: l)) 0) as [H0 | H0]; [lia|].
    repeat split; auto; congruence.
Qed.

Lemma qber_sampling_witness :
  exists f w',
    transmit_bb84_locals (N := Standin.numpy) 6 1 0 Standin.start = (ok f, w') /\
    Locals.a_sift f
      = map (fun i => nth i (Locals.a_bits f) 0) (Locals.sifted_indices f) /\
    Locals.b_sift f
      = map (fun i => nth i (Locals.b_results f) None) (Locals.sifted_indices f) /\
    (0 < len (Locals.a_sift f) ->
     exists idx,
       Locals.sample_idx f = Some idx /\
       len idx = Z.max 1 (Qfloor ((2 # 10) * inject_Z (len (Locals.a_sift f)))) /\
       Locals.sample_size f = len idx /\
       NoDup idx /\
       Forall (fun k => (k < List.length (Locals.a_sift f))%nat) idx /\
       Locals.qber f
       = (inject_Z (len (filter (mismatch (Locals.a_sift f) (Locals.b_sift f)) idx))
          / inject_Z (len idx))%Q) /\
    (len (Locals.a_sift f) = 0 -> Locals.qber f = 0%Q).
Proof.
  apply (qber_sampling (N := Standin.numpy) 6 1 0 Standin.start).
  - discriminate.
  - exact standin_start_sample_ok.
Defined.

(** C7, as stated, fails: with a transmission probability of 2 and an
    error probability of -1 a session runs and returns a result. *)
Lemma out_of_range_not_rejected :
  ~ (0 <= 2 # 1 <= 1)%Q /\ ~ (0 <= -1 # 1 <= 1)%Q /\
  fst (transmit_bb84 (N := Standin.numpy) 3 (2 # 1) (-1 # 1) Standin.start)
  = ok (mkSession 3 3 0 2 "01").
Proof.
  split; [intros [_ H]; now apply H|].
  split; [intros [H _]; now apply H|].
  vm_compute. reflexivity.
Qed.

(** C7, amended. The session engine does not validate its two
    probabilities: with either outside [0,1] and a photon count that is not
    negative, a session runs to its end and returns a result, and it touches
    no state beyond the random tapes. *)
Theorem out_of_range_accepted {N : Numpy_lib} (n : Z) (tp ep : Q) (w : world) :
  ~ ((0 <= tp <= 1)%Q /\ (0 <= ep <= 1)%Q) ->
  0 <= n -> sample_ok w ->
  exists res w',
    transmit_bb84 n tp ep w = (ok res, w') /\ rng_only w w' /\
    n_sent res = n /\ 0 <= n_sifted res <= n.
Proof.
  intros _ Hn Hs.
  destruct (SimFacts.transmit_locals_total n tp ep w Hn Hs)
    as (f & w' & E & R & Hf).
  destruct Hf as (Hsi & Ha & _).
  exists (result_dict n f), w'. unfold transmit_bb84. run E.
  split; [reflexivity|]. split; [exact R|]. split; [reflexivity|].
  unfold result_dict; simpl. rewrite Ha, Hsi. unfold len, range.
  rewrite length_map.
  pose proof (SimFacts.filter_seq_length
                (kept (Locals.a_bases f) (Locals.arrives f) (Locals.b_bases f))
                0 (Z.to_nat n)). lia.
Qed.

Lemma out_of_range_accepted_witness :
  exists res w',
    transmit_bb84 (N := Standin.numpy) 3 (2 # 1) (-1 # 1) Standin.start = (ok res, w') /\
    rng_only Standin.start w' /\
    n_sent res = 3 /\ 0 <= n_sifted res <= 3.
Proof.
  apply (out_of_range_accepted (N := Standin.numpy) 3 (2 # 1) (-1 # 1) Standin.start).
  - intros [[_ H] _]. now apply H.
  - discriminate.
  - exact standin_start_sample_ok.
Defined.

(** C8. With no photons a session returns without error, for all
    probabilities: every count is 0, [qber] is 0, the key is empty; the
    division is never reached. *)
Theorem zero_photons {N : Numpy_lib} (tp ep : Q) (w : world) :
  exists w',
    transmit_bb84 0 tp ep w = (ok (mkSession 0 0 0 0 ""), w') /\
    rng_only w w'.
Proof.
  destruct (SimFacts.transmit_frame 0 tp ep w) as (r & w' & E & R & _).
  exists w'. split; [|exact R].
  rewrite E. f_equal.
  change r with (fst (r, w')). rewrite <- E.
  vm_compute. reflexivity.
Qed.

(* ================================================================== *)
(** * The key buffer and the ingest handler *)
(* ================================================================== *)

Module BackendFacts.
Import CryptoUtils Backend.

Lemma get_KEY_BUFFER_run (w : world) : get_KEY_BUFFER w = (ok (KEY_BUFFER w), w).
Proof. reflexivity. Qed.

Lemma set_KEY_BUFFER_run (s : string) (w : world) :
  set_KEY_BUFFER s w = (ok tt, snd (set_KEY_BUFFER s w)).
Proof. reflexivity. Qed.

Section WithLibs.
Context {L : AESGCM_lib} {N : Numpy_lib} {B : Backend_lib}.

(** [run_qkd] either raises before touching the buffer, or appends the
    session key it reports, a bit string. *)
Lemma run_qkd_effect (n : Z) (alt lat lon ep : Q) (w : world) :
  exists r w',
    run_qkd n alt lat lon ep w = (r, w') /\
    match r with
    | inl _ => KEY_BUFFER w' = KEY_BUFFER w
    | inr resp =>
        KEY_BUFFER w'
        = (KEY_BUFFER w ++ sifted_key (session (qkd_stats_of resp)))%string /\
        is_bits (sifted_key (session (qkd_stats_of resp))) = true /\
        run_key_buffer_len resp = len_str (KEY_BUFFER w')
    end.
Proof.
  unfold run_qkd. cbv zeta.
  destruct (SimFacts.transmit_frame n
              (trans_prob_from_distance
                 (sat_ground_distance_km alt GS_LAT GS_LON lat lon)) ep w)
    as (r & w1 & E & R & Hb).
  destruct r as [e | res].
  - rewrite (bind_raise_run _ _ _ E).
    eexists; exists w1. split; [reflexivity|]. apply R.
  - run E. destruct R as (Rk & _).
    eexists; eexists. split; [reflexivity|]. simpl.
    rewrite Rk. auto.
Qed.








End WithLibs.

End BackendFacts.

Import CryptoUtils Backend.





#[export] Instance standin_json_ok : Json_ok Standin.backend.
Proof. constructor. reflexivity. Qed.


(* ================================================================== *)
(** * Key derivation as bit packing *)
(* ================================================================== *)

Module PackFacts.
Import CryptoUtils.

Lemma bin_length (k : nat) (z : Z) : String.length (bin k z) = k.
Proof. induction k; simpl; auto. Qed.

(** Digits above position [b] are the digits of the shifted number. *)
Lemma bin_app (a b : nat) (z : Z) :
  bin (a + b) z = (bin a (Z.shiftr z (Z.of_nat b)) ++ bin b z)%string.
Proof.
  induction a as [|a IH]; [reflexivity|].
  change (S a + b)%nat with (S (a + b)). cbn [bin String.append].
  rewrite IH. f_equal.
  rewrite Z.shiftr_spec by lia.
  now replace (Z.of_nat a + Z.of_nat b) with (Z.of_nat (a + b)) by lia.
Qed.

Lemma bin_mod (k j : nat) (z : Z) :
  (k <= j)%nat -> bin k (z mod 2 ^ Z.of_nat j) = bin k z.
Proof.
  induction k as [|k IH]; intros H; [reflexivity|].
  cbn [bin]. rewrite IH by lia.
  now rewrite Z.mod_pow2_bits_low by lia.
Qed.

Lemma byte_of_Z_value (z : Z) : Z.of_N (Byte.to_N (byte_of_Z z)) = z mod 256.
Proof.
  unfold byte_of_Z.
  pose proof (Z.mod_pos_bound z 256 ltac:(lia)) as Hr.
  destruct (Byte.of_N (Z.to_N (z mod 256))) as [b|] eqn:E.
  - apply Byte.to_of_N in E. rewrite E. lia.
  - apply Byte.of_N_None_iff in E. lia.
Qed.

Lemma bits_of_bytes_cons (b : byte) (l : list byte) :
  bits_of_bytes (b :: l)
  = (bin 8 (Z.of_N (Byte.to_N b)) ++ bits_of_bytes l)%string.
Proof. reflexivity. Qed.

(** Unpacking big-endian bytes gives the binary digits of the number. *)
Lemma bits_of_be_bytes (n : nat) (z : Z) :
  bits_of_bytes (be_bytes n z) = bin (8 * n) z.
Proof.
  induction n as [|n IH]; [reflexivity|].
  replace (8 * S n)%nat with (8 + 8 * n)%nat by lia.
  rewrite bin_app.
  change (be_bytes (S n) z)
    with (byte_of_Z (Z.shiftr z (8 * Z.of_nat n)) :: be_bytes n z).
  rewrite bits_of_bytes_cons, IH, byte_of_Z_value.
  change 256 with (2 ^ Z.of_nat 8). rewrite bin_mod by lia.
  now replace (8 * Z.of_nat n) with (Z.of_nat (8 * n)) by lia.
Qed.

(** The binary digits of [int(s, 2)] are the characters of [s]. *)
Lemma bin_of_int2_digits (s : string) :
  is_bits s = true ->
  forall acc z, int2_digits s acc = Some z -> bin (String.length s) z = s.
Proof.
  induction s as [|c s IH]; intros Hb acc z Hz; [reflexivity|].
  simpl in Hb. apply andb_prop in Hb as [Hc Hs].
  cbn [String.length bin]. cbn [int2_digits] in Hz.
  assert (Hhead : forall acc', int2_digits s acc' = Some z ->
                               Z.testbit z (Z.of_nat (String.length s)) = Z.odd acc').
  { intros acc' H'.
    destruct (int2_digits_bits s Hs acc') as (z' & Hz' & Hr).
    rewrite H' in Hz'. injection Hz' as <-. unfold len_str in Hr.
    rewrite Z.testbit_odd, Z.shiftr_div_pow2 by lia. f_equal.
    symmetry. apply Z.div_unique with (r := z - acc' * 2 ^ Z.of_nat (String.length s)); lia. }
  unfold is_bit_char in Hc.
  destruct (Ascii.eqb c "0") eqn:E0.
  - apply Ascii.eqb_eq in E0. subst c.
    rewrite (Hhead _ Hz), (IH Hs _ _ Hz).
    now rewrite Z.odd_mul.
  - simpl in Hc. rewrite Hc in Hz. apply Ascii.eqb_eq in Hc. subst c.
    rewrite (Hhead _ Hz), (IH Hs _ _ Hz).
    now rewrite Z.add_comm, Z.odd_add_mul_2.
Qed.

(** Key derivation for any positive key size: the bytes are the bits
    packed eight to a byte, first bit highest. *)
Lemma bits_to_bytes_unpack (key_bits : string) (length_bytes : Z) :
  0 < length_bytes ->
  length_bytes * 8 <= len_str key_bits ->
  is_bits (str_take (Z.to_nat (length_bytes * 8)) key_bits) = true ->
  exists key,
    bits_to_bytes key_bits length_bytes = ok key /\
    len key = length_bytes /\
    bits_of_bytes key = str_take (Z.to_nat (length_bytes * 8)) key_bits.
Proof.
  intros Hpos Hlen Hbits. unfold bits_to_bytes. cbv zeta.
  destruct (Z.ltb_spec (len_str key_bits) (length_bytes * 8)); [lia|].
  set (s := str_take (Z.to_nat (length_bytes * 8)) key_bits) in *.
  assert (Hl : String.length s = Z.to_nat (length_bytes * 8)).
  { unfold s. rewrite str_take_length. unfold len_str in *. lia. }
  destruct (int_base2_bits s Hbits) as (z & Hz & Hr).
  { intros E. rewrite E in Hl. simpl in Hl. lia. }
  rewrite Hz. unfold ok at 1. cbv beta iota.
  unfold len_str in Hr. rewrite Hl in Hr.
  rewrite Z2Nat.id in Hr by lia.
  unfold to_bytes_big.
  destruct (Z.ltb_spec z 0); [lia|].
  replace (8 * length_bytes) with (length_bytes * 8) by lia.
  destruct (Z.leb_spec (2 ^ (length_bytes * 8)) z); [lia|].
  exists (be_bytes (Z.to_nat length_bytes) z). split; [reflexivity|].
  split; [unfold len; rewrite be_bytes_length; lia|].
  rewrite bits_of_be_bytes.
  replace (8 * Z.to_nat length_bytes)%nat with (String.length s) by lia.
  unfold int_base2 in Hz.
  destruct s as [|c s'] eqn:Es; [discriminate|]. rewrite <- Es in *.
  destruct (int2_digits s 0) as [z'|] eqn:Ez; [|discriminate].
  injection Hz as <-. exact (bin_of_int2_digits s Hbits 0 z' Ez).
Qed.

End PackFacts.

(** X1. For any positive key size, a bit string of at least eight times
    that many characters is turned into exactly that many bytes, and writing
    those bytes out in bits gives back the characters used. *)
Theorem key_bytes_unpack (key_bits : string) (length_bytes : Z) :
  0 < length_bytes ->
  length_bytes * 8 <= len_str key_bits ->
  is_bits key_bits = true ->
  exists key,
    CryptoUtils.bits_to_bytes key_bits length_bytes = ok key /\
    len key = length_bytes /\
    bits_of_bytes key = str_take (Z.to_nat (length_bytes * 8)) key_bits.
Proof.
  intros Hpos Hlen Hbits.
  apply PackFacts.bits_to_bytes_unpack; auto. now apply is_bits_take.
Qed.

Lemma key_bytes_unpack_witness :
  exists key,
    CryptoUtils.bits_to_bytes "0000000100000010111" 2 = ok key /\
    len key = 2 /\
    bits_of_bytes key = str_take (Z.to_nat (2 * 8)) "0000000100000010111".
Proof.
  apply (key_bytes_unpack "0000000100000010111" 2).
  - reflexivity.
  - vm_compute. discriminate.
  - reflexivity.
Defined.

(** X2. Two bit strings of at least 128 bits derive the same AES key
    exactly when their first 128 bits are the same. *)
Theorem same_key_iff_same_prefix (k1 k2 : string) :
  128 <= len_str k1 -> 128 <= len_str k2 ->
  is_bits k1 = true -> is_bits k2 = true ->
  (CryptoUtils.bits_to_bytes k1 16 = CryptoUtils.bits_to_bytes k2 16
   <-> str_take 128 k1 = str_take 128 k2).
Proof.
  intros H1 H2 B1 B2.
  destruct (PackFacts.bits_to_bytes_unpack k1 16) as (key1 & E1 & _ & U1);
    [lia | exact H1 | now apply is_bits_take |].
  destruct (PackFacts.bits_to_bytes_unpack k2 16) as (key2 & E2 & _ & U2);
    [lia | exact H2 | now apply is_bits_take |].
  change (Z.to_nat (16 * 8)) with 128%nat in U1, U2.
  split.
  - intros E. rewrite E1, E2 in E. injection E as ->. congruence.
  - intros E.
    rewrite (CryptoFacts.bits_to_bytes_prefix k1 H1), E.
    symmetry. apply CryptoFacts.bits_to_bytes_prefix. exact H2.
Qed.

Lemma same_key_iff_same_prefix_witness :
  CryptoUtils.bits_to_bytes (Standin.bits10 130) 16
  = CryptoUtils.bits_to_bytes (Standin.bits10 128) 16
  <-> str_take 128 (Standin.bits10 130) = str_take 128 (Standin.bits10 128).
Proof.
  apply (same_key_iff_same_prefix (Standin.bits10 130) (Standin.bits10 128)).
  - vm_compute. discriminate.
  - vm_compute. discriminate.
  - reflexivity.
  - reflexivity.
Defined.

(** X3. The secured payload is the 12 bytes read from [os.urandom]
    followed by the cipher's output under the derived key and that nonce;
    encrypting moves only the [os.urandom] position, by 12, and decrypting
    splits its input at byte 12 and leaves the state as it was. *)
Theorem secured_payload_layout {L : AESGCM_lib}
    (key_bits : string) (payload : list byte) (w : world) :
  128 <= len_str key_bits -> is_bits key_bits = true ->
  exists key w',
    CryptoUtils.bits_to_bytes key_bits 16 = ok key /\
    let nonce := map (os_tape w) (seq (os_pos w) 12) in
    CryptoUtils.aesgcm_encrypt_with_bits key_bits payload w
      = (ok (nonce ++ aes_gcm_encrypt key nonce payload), w') /\
    List.length nonce = 12%nat /\
    os_pos w' = (os_pos w + 12)%nat /\
    KEY_BUFFER w' = KEY_BUFFER w /\ LAST_QKD w' = LAST_QKD w /\
    py_pos w' = py_pos w /\ np_pos w' = np_pos w /\
    forall blob,
      CryptoUtils.aesgcm_decrypt_with_bits key_bits blob w'
      = (aes_gcm_decrypt key (firstn 12 blob) (skipn 12 blob), w').
Proof.
  intros Hlen Hbits.
  destruct (CryptoFacts.bits_to_bytes_ok key_bits Hlen) as (key & Hkey & Hkl);
    [now apply is_bits_take|].
  exists key. eexists. split; [exact Hkey|]. cbv zeta.
  split.
  { unfold CryptoUtils.aesgcm_encrypt_with_bits, bind, lift, os_urandom, ret.
    rewrite Hkey. unfold ok at 1. rewrite (CryptoFacts.AESGCM_128 key Hkl).
    unfold ok at 1. reflexivity. }
  split; [now rewrite length_map, length_seq|].
  do 5 (split; [reflexivity|]).
  intros blob. now apply CryptoFacts.decrypt_run.
Qed.

Lemma secured_payload_layout_witness :
  exists key w',
    CryptoUtils.bits_to_bytes (Standin.bits10 128) 16 = ok key /\
    CryptoUtils.aesgcm_encrypt_with_bits (L := Standin.cipher)
      (Standin.bits10 128) [x01] Standin.start
      = (ok (map (os_tape Standin.start) (seq (os_pos Standin.start) 12)
             ++ aes_gcm_encrypt (AESGCM_lib := Standin.cipher) key
                  (map (os_tape Standin.start) (seq (os_pos Standin.start) 12)) [x01]),
         w') /\
    os_pos w' = (os_pos Standin.start + 12)%nat.
Proof.
  destruct (secured_payload_layout (L := Standin.cipher)
              (Standin.bits10 128) [x01] Standin.start)
    as (key & w' & Hk & Henc & _ & Hpos & _).
  - vm_compute. discriminate.
  - reflexivity.
  - exists key, w'. split; [exact Hk|]. split; [exact Henc | exact Hpos].
Defined.

(* ================================================================== *)
(** * What a session does with its draws *)
(* ================================================================== *)

Module DrawFacts.
Import QuantumSim View.

Lemma random_random_value (w : world) :
  exists w', random_random w = (ok (as_random (py_tape w (py_pos w))), w')
             /\ rng_only w w'.
Proof.
  destruct (next_draw_run w) as (w' & E & R).
  exists w'. unfold random_random. run E. split; [reflexivity | exact R].
Qed.

Lemma np_random_rand_value (n : Z) (w : world) :
  0 <= n ->
  exists l w', np_random_rand n w = (ok l, w') /\
               List.length l = Z.to_nat n /\
               Forall (fun u => exists j, u = np_tape w j) l /\
               rng_only w w'.
Proof.
  intros Hn. unfold np_random_rand.
  destruct (Z.ltb_spec n 0); [lia|].
  eexists; eexists. split; [reflexivity|].
  split; [now rewrite length_map, length_seq|].
  split; [|unfold rng_only; simpl; auto 10].
  apply Forall_forall. intros u Hu. apply in_map_iff in Hu as (j & <- & _).
  now exists j.
Qed.

Section Measurement.
Variables (a_bits : list Z) (a_bases : list string) (arrives : list bool)
          (b_bases : list string) (error_prob : Q) (m : nat).
Hypothesis len_a_bits : List.length a_bits = m.
Hypothesis len_a_bases : List.length a_bases = m.
Hypothesis len_arrives : List.length arrives = m.
Hypothesis len_b_bases : List.length b_bases = m.

(** On a photon kept by sifting the loop writes the sender's bit,
    flipped exactly when the channel draw is below [error_prob]. *)
Lemma measure_outcome (i : nat) (b_results : list (option Z)) (w : world) :
  (i < m)%nat -> List.length b_results = m ->
  exists v w',
    measure a_bits a_bases arrives b_bases error_prob i b_results w
      = (ok (list_set b_results i v), w') /\
    rng_only w w' /\
    (kept a_bases arrives b_bases i = true ->
     exists j, v = outcome error_prob (nth i a_bits 0) (as_random (py_tape w j))).
Proof.
  intros Hi Hbr. unfold measure, kept.
  run (SimFacts.lift_getitem_run arrives i false w ltac:(lia)).
  destruct (nth i arrives false); cbv beta iota delta [negb].
  - run (SimFacts.lift_getitem_run a_bases i "" w ltac:(lia)).
    run (SimFacts.lift_getitem_run b_bases i "" w ltac:(lia)).
    destruct (String.eqb (nth i a_bases "") (nth i b_bases "")).
    + run (SimFacts.lift_getitem_run a_bits i 0 w ltac:(lia)).
      destruct (random_random_value w) as (w' & E & R).
      run E. cbv zeta.
      eexists; exists w'. split; [apply SimFacts.lift_setitem_run; lia|].
      split; [exact R|]. intros _. exists (py_pos w). reflexivity.
    + destruct (random_randint01_run w) as (r & w' & E & Hr & R).
      run E.
      eexists; exists w'. split; [apply SimFacts.lift_setitem_run; lia|].
      split; [exact R|]. simpl. discriminate.
  - exists None, w. split; [apply SimFacts.lift_setitem_run; lia|].
    split; [apply rng_only_refl|]. simpl. discriminate.
Qed.

Lemma measure_loop_outcome (idxs : list nat) :
  Forall (fun i => (i < m)%nat) idxs ->
  forall (b_results : list (option Z)) (w : world),
    List.length b_results = m ->
    exists br' w',
      for_each idxs (measure a_bits a_bases arrives b_bases error_prob) b_results w
        = (ok br', w') /\
      List.length br' = m /\ rng_only w w' /\
      (forall i, In i idxs -> kept a_bases arrives b_bases i = true ->
                 exists j, nth_error br' i
                           = Some (outcome error_prob (nth i a_bits 0)
                                     (as_random (py_tape w j)))) /\
      (forall i, ~ In i idxs -> nth_error br' i = nth_error b_results i).
Proof.
  induction idxs as [|k idxs IH]; intros Hidx br w Hbr.
  - exists br, w. split; [reflexivity|]. split; [exact Hbr|].
    split; [apply rng_only_refl|]. split; [intros i []|auto].
  - apply Forall_cons_iff in Hidx as [Hk Hrest].
    destruct (measure_outcome k br w Hk Hbr) as (v & w1 & E1 & R1 & Hv).
    destruct (IH Hrest (list_set br k v) w1) as (br' & w2 & E2 & Hl & R2 & Hin & Hout).
    { now rewrite list_set_length. }
    assert (Ht : py_tape w1 = py_tape w) by apply R1.
    exists br', w2. rewrite for_each_cons. run E1.
    split; [exact E2|]. split; [exact Hl|].
    split; [eapply rng_only_trans; eauto|]. split.
    + intros i Hi Hkept.
      destruct (in_dec Nat.eq_dec i idxs) as [Hi' | Hni].
      * destruct (Hin i Hi' Hkept) as (j & Hj). exists j. now rewrite <- Ht.
      * destruct Hi as [<- | Hi]; [|contradiction].
        destruct (Hv Hkept) as (j & ->). exists j.
        rewrite (Hout k Hni). apply list_set_same. lia.
    + intros i Hni. rewrite Hout by (intros Hi; apply Hni; now right).
      apply list_set_other. intros ->. apply Hni. now left.
Qed.

End Measurement.

Section WithNumpy.
Context {N : Numpy_lib}.

(** The session up to the sifted lists, with where each value came
    from. *)
Lemma exchange_run_values (n : Z) (tp ep : Q) (w : world) :
  0 <= n ->
  exists a_bits a_bases arrives b_bases b_results w1,
    rng_only w w1 /\
    Forall is_bit a_bits /\
    List.length a_bits = Z.to_nat n /\
    List.length b_results = Z.to_nat n /\
    Forall (fun a => exists j, a = flt (np_tape w j) tp) arrives /\
    let sifted := filter (kept a_bases arrives b_bases) (range n) in
    (forall i, In i sifted ->
       exists j, nth i b_results None
                 = outcome ep (nth i a_bits 0) (as_random (py_tape w j))) /\
    transmit_bb84_locals n tp ep w
    = estimate_and_distill a_bits a_bases arrives b_bases b_results sifted
        (map (fun i => nth i a_bits 0) sifted)
        (map (fun i => nth i b_results None) sifted) w1.
Proof.
  intros Hn. unfold transmit_bb84_locals.
  destruct (SimFacts.random_bits_run n w) as (a_bits & w1 & E1 & L1 & B1 & R1). run E1.
  destruct (SimFacts.random_bases_run n w1) as (a_bases & w2 & E2 & L2 & R2). run E2.
  destruct (np_random_rand_value n w2 Hn) as (rand & w3 & E3 & L3 & V3 & R3). run E3.
  cbv zeta.
  set (arrives := map (fun u => flt u tp) rand).
  assert (La : List.length arrives = Z.to_nat n)
    by (unfold arrives; now rewrite length_map).
  destruct (SimFacts.random_bases_run n w3) as (b_bases & w4 & E4 & L4 & R4). run E4.
  assert (Hrange : Forall (fun i => (i < Z.to_nat n)%nat) (range n)).
  { apply Forall_forall. intros i Hi. unfold range in Hi.
    apply in_seq in Hi. lia. }
  destruct (measure_loop_outcome a_bits a_bases arrives b_bases ep (Z.to_nat n)
              L1 L2 La L4 (range n) Hrange
              (repeat None (Z.to_nat n)) w4 (repeat_length _ _))
    as (br & w5 & E5 & L5 & R5 & Hin & _).
  run E5.
  run (SimFacts.sifting_run a_bases arrives b_bases (Z.to_nat n) L2 La L4 (range n) w5 Hrange).
  set (sifted := filter (kept a_bases arrives b_bases) (range n)).
  assert (Hsift : Forall (fun i => (i < Z.to_nat n)%nat) sifted).
  { apply Forall_forall. intros i Hi. apply filter_In in Hi as [Hi _].
    apply (proj1 (Forall_forall _ _) Hrange). exact Hi. }
  run (SimFacts.gather_run a_bits 0 sifted w5 ltac:(now rewrite L1)).
  run (SimFacts.gather_run br None sifted w5 ltac:(now rewrite L5)).
  assert (R14 : rng_only w w4).
  { eapply rng_only_trans; [exact R1|]. eapply rng_only_trans; [exact R2|].
    eapply rng_only_trans; [exact R3 | exact R4]. }
  exists a_bits, a_bases, arrives, b_bases, br, w5.
  split; [eapply rng_only_trans; eauto|].
  split; [exact B1|]. split; [exact L1|]. split; [exact L5|].
  split.
  { assert (Hnp : np_tape w2 = np_tape w).
    { destruct R1 as (_ & _ & _ & T1 & _). destruct R2 as (_ & _ & _ & T2 & _).
      congruence. }
    unfold arrives. apply Forall_forall. intros a Ha.
    apply in_map_iff in Ha as (u & <- & Hu).
    destruct (proj1 (Forall_forall _ _) V3 u Hu) as (j & ->).
    exists j. now rewrite Hnp. }
  cbv zeta. fold sifted. split; [|reflexivity].
  intros i Hi. apply filter_In in Hi as [Hi Hk].
  destruct (Hin i Hi Hk) as (j & Hj). exists j.
  rewrite (nth_error_nth _ _ None Hj).
  assert (Ht : py_tape w4 = py_tape w) by apply R14.
  now rewrite Ht.
Qed.

End WithNumpy.

End DrawFacts.

Module SessionFacts.
Import QuantumSim View SimFacts.

(** A prefix of the key string is the string of a prefix of the
    outcomes. *)
Lemma key_take (l : list (option Z)) :
  Forall is_some_bit l ->
  forall n, str_take n (join (map str_opt_int l))
            = join (map str_opt_int (firstn n l)).
Proof.
  induction 1 as [|v l Hv _ IH]; intros [|n]; try reflexivity.
  destruct Hv as [-> | ->]; simpl; now rewrite IH.
Qed.

Lemma in_firstn {A} (n : nat) (l : list A) (x : A) :
  In x (firstn n l) -> In x l.
Proof.
  intros H. rewrite <- (firstn_skipn n l). apply in_or_app. now left.
Qed.

Lemma nth_all_false (l : list bool) (i : nat) :
  Forall (fun a => a = false) l -> nth i l false = false.
Proof.
  intros H. revert i. induction H as [|a l Ha _ IH]; intros [|i]; simpl; auto.
Qed.

Lemma filter_none {A} (p : A -> bool) (l : list A) :
  (forall x, In x l -> p x = false) -> filter p l = [].
Proof.
  induction l as [|x l IH]; intros H; [reflexivity|].
  simpl. rewrite (H x (or_introl eq_refl)). apply IH.
  intros y Hy. apply H. now right.
Qed.

Lemma filter_all {A} (p : A -> bool) (l : list A) :
  (forall x, In x l -> p x = true) -> filter p l = l.
Proof.
  induction l as [|x l IH]; intros H; [reflexivity|].
  simpl. rewrite (H x (or_introl eq_refl)). f_equal. apply IH.
  intros y Hy. apply H. now right.
Qed.

Lemma Qdiv_zero (s : Z) : (inject_Z 0 / inject_Z s == 0)%Q.
Proof. unfold Qdiv. now rewrite Qmult_0_l. Qed.

Lemma Qdiv_self (s : Z) : 1 <= s -> (inject_Z s / inject_Z s == 1)%Q.
Proof.
  intros H. apply Qmult_inv_r.
  intros E. assert (Hs : (0 < inject_Z s)%Q).
  { change 0%Q with (inject_Z 0). rewrite <- Zlt_Qlt. lia. }
  rewrite E in Hs. now apply Qlt_irrefl in Hs.
Qed.

Section WithNumpy.
Context {N : Numpy_lib}.

(** Where the entropy term vanishes the count is nine tenths of the
    sifted bits, rounded down. *)
Lemma rate_at_extremes (k : Z) (q : Q) :
  0 <= k -> (q <= 0)%Q \/ (1 <= q)%Q ->
  Z.max 0 (int_of_float (inject_Z k * fmax 0 (1 - bin_entropy q - (1 # 10)))%Q)
  = 9 * k / 10.
Proof.
  intros Hk Hq. rewrite (SimFacts.bin_entropy_outside q Hq).
  change (fmax 0 (1 - 0 - (1 # 10))) with (9 # 10)%Q.
  unfold int_of_float, Qmult, inject_Z. cbn [Qnum Qden].
  change (Z.pos (1 * 10)) with 10.
  rewrite Z.quot_div_nonneg by lia.
  replace (k * 9) with (9 * k) by lia.
  apply Z.max_r. apply Z.div_pos; lia.
Qed.

(** Whatever the entropy, at most nine tenths. *)
Lemma rate_bound {O : Numpy_ok N} (k : Z) (q : Q) :
  0 <= k ->
  10 * Z.max 0 (int_of_float (inject_Z k * fmax 0 (1 - bin_entropy q - (1 # 10)))%Q)
  <= 9 * k.
Proof.
  intros Hk. rewrite SimFacts.R_secure_floor by exact Hk.
  rewrite <- fmax_Qmax.
  set (x := (inject_Z k * fmax 0 (1 - bin_entropy q - (1 # 10)))%Q).
  pose proof (Qfloor_le x) as Hf.
  pose proof (SimFacts.inject_Z_nonneg k Hk) as Hk'.
  pose proof (SimFacts.bin_entropy_nonneg q) as Hh.
  pose proof (fmax_lower 0 (1 - bin_entropy q - (1 # 10))) as Hlo.
  assert (Hup : (fmax 0 (1 - bin_entropy q - (1 # 10)) <= 9 # 10)%Q)
    by (apply fmax_upper; lra).
  assert (Hp : (0 <= inject_Z k * ((9 # 10) - fmax 0 (1 - bin_entropy q - (1 # 10))))%Q)
    by (apply Qmult_le_0_compat; lra).
  assert (Hx : (x <= inject_Z k * (9 # 10))%Q) by (unfold x; lra).
  rewrite Zle_Qle, !inject_Z_mult.
  change (inject_Z 10) with 10%Q. change (inject_Z 9) with 9%Q. lra.
Qed.

(** A returned session with where its values came from. *)
Lemma transmit_locals_values (n : Z) (tp ep : Q) (w : world) :
  0 <= n -> sample_ok w ->
  exists f w',
    transmit_bb84_locals n tp ep w = (ok f, w') /\
    rng_only w w' /\ session_facts n f /\
    Forall is_bit (Locals.a_bits f) /\
    (forall i, In i (Locals.sifted_indices f) ->
       exists j, nth i (Locals.b_results f) None
                 = outcome ep (nth i (Locals.a_bits f) 0) (as_random (py_tape w j))).
Proof.
  intros Hn Hs.
  destruct (DrawFacts.exchange_run_values n tp ep w Hn)
    as (a_bits & a_bases & arrives & b_bases & br & w1
        & R1 & B1 & L1 & L5 & _ & Hout & E).
  cbv zeta in Hout, E. rewrite E. unfold estimate_and_distill.
  destruct (SimFacts.estimate_qber_total
              (map (fun i => nth i a_bits 0) (filter (kept a_bases arrives b_bases) (range n)))
              (map (fun i => nth i br None) (filter (kept a_bases arrives b_bases) (range n)))
              w1)
    as (size & idx & errs & q & w2 & E2 & R2 & Hsam).
  { eapply sample_ok_rng_only; eauto. }
  { now rewrite !length_map. }
  run E2. cbv zeta.
  eexists; exists w2. split; [reflexivity|].
  split; [eapply rng_only_trans; eauto|].
  split; [|split; [exact B1 | exact Hout]].
  unfold session_facts; simpl. repeat split; auto; try apply Hsam.
  apply Forall_forall. intros v Hv. apply in_map_iff in Hv as (i & <- & Hi).
  destruct (Hout i Hi) as (j & ->). unfold outcome.
  assert (Hb : is_bit (nth i a_bits 0)).
  { apply (proj1 (Forall_forall _ _) B1), nth_In.
    apply filter_In in Hi as [Hi _]. unfold range in Hi. apply in_seq in Hi. lia. }
  pose proof (SimFacts.lxor_bit _ Hb) as Hx.
  destruct (flt _ ep); [destruct Hx as [-> | ->] | destruct Hb as [-> | ->]];
    unfold is_some_bit; auto.
Qed.

End WithNumpy.

End SessionFacts.

Import SessionFacts.

(** X4. A negative photon count is refused with numpy's [ValueError]
    before any random number is drawn: the state is exactly as before. *)
Theorem negative_photon_count {N : Numpy_lib} (n : Z) (tp ep : Q) (w : world) :
  n < 0 ->
  transmit_bb84 n tp ep w
  = (raise (ValueError "negative dimensions are not allowed"), w).
Proof.
  intros Hn. unfold transmit_bb84.
  now rewrite (bind_raise_run _ _ _ (SimFacts.transmit_negative n tp ep w Hn)).
Qed.

Lemma negative_photon_count_witness :
  transmit_bb84 (N := Standin.numpy) (-1) (1 # 2) 0 Standin.start
  = (raise (ValueError "negative dimensions are not allowed"), Standin.start).
Proof.
  apply (negative_photon_count (N := Standin.numpy) (-1) (1 # 2) 0 Standin.start).
  reflexivity.
Defined.

(** X5. The returned key is, character for character, the receiver's
    outcomes at the first [R_secure] sifted photons in ascending photon
    order; positions used for the QBER sample are not left out. *)
Theorem key_is_outcome_prefix {N : Numpy_lib} (n : Z) (tp ep : Q) (w : world) :
  0 <= n -> sample_ok w ->
  exists f w',
    transmit_bb84_locals n tp ep w = (ok f, w') /\
    transmit_bb84 n tp ep w = (ok (result_dict n f), w') /\
    Locals.sifted_indices f
      = filter (kept (Locals.a_bases f) (Locals.arrives f) (Locals.b_bases f))
          (range n) /\
    sifted_key (result_dict n f)
      = join (map (fun i => str_opt_int (nth i (Locals.b_results f) None))
                (firstn (Z.to_nat (R_secure_bits (result_dict n f)))
                   (Locals.sifted_indices f))) /\
    is_bits (sifted_key (result_dict n f)) = true.
Proof.
  intros Hn Hs.
  destruct (SimFacts.transmit_locals_total n tp ep w Hn Hs)
    as (f & w' & E & _ & Hf).
  destruct Hf as (Hsi & Ha & Hb & Hbits & Hsam & HR & Hkey & Hdemo).
  exists f, w'. split; [exact E|].
  split; [unfold transmit_bb84; now run E|].
  split; [exact Hsi|].
  assert (HR0 : 0 <= Locals.R_secure f) by (rewrite HR; apply Z.le_max_l).
  assert (Hk : sifted_key (result_dict n f)
               = join (map str_opt_int
                         (firstn (Z.to_nat (Locals.R_secure f)) (Locals.b_sift f)))).
  { unfold result_dict; simpl.
    rewrite Hdemo, SimFacts.str_prefix_nonneg, Hkey by exact HR0.
    now apply key_take. }
  split.
  - rewrite Hk. unfold result_dict; simpl.
    now rewrite Hb, firstn_map, map_map.
  - rewrite Hk. apply SimFacts.key_of_bits.
    apply Forall_forall. intros v Hv.
    apply (proj1 (Forall_forall _ _) Hbits). eapply in_firstn; eauto.
Qed.

Lemma key_is_outcome_prefix_witness :
  exists f w',
    transmit_bb84_locals (N := Standin.numpy) 6 1 0 Standin.start = (ok f, w') /\
    sifted_key (result_dict 6 f)
      = join (map (fun i => str_opt_int (nth i (Locals.b_results f) None))
                (firstn (Z.to_nat (R_secure_bits (result_dict 6 f)))
                   (Locals.sifted_indices f))).
Proof.
  destruct (key_is_outcome_prefix (N := Standin.numpy) 6 1 0 Standin.start)
    as (f & w' & E & _ & _ & Hk & _).
  - discriminate.
  - exact standin_start_sample_ok.
  - exists f, w'. split; [exact E | exact Hk].
Defined.

(** X6. A session never reports more secure bits than nine tenths of
    its sifted bits. *)
Theorem secure_at_most_nine_tenths {N : Numpy_lib} {O : Numpy_ok N}
    (n : Z) (tp ep : Q) (w : world) :
  0 <= n -> sample_ok w ->
  exists res w',
    transmit_bb84 n tp ep w = (ok res, w') /\
    10 * R_secure_bits res <= 9 * n_sifted res.
Proof.
  intros Hn Hs.
  destruct (SimFacts.transmit_locals_total n tp ep w Hn Hs)
    as (f & w' & E & _ & Hf).
  destruct Hf as (_ & _ & _ & _ & _ & HR & _).
  exists (result_dict n f), w'. unfold transmit_bb84. run E.
  split; [reflexivity|]. unfold result_dict; simpl.
  rewrite HR. apply rate_bound. unfold len. lia.
Qed.

Lemma secure_at_most_nine_tenths_witness :
  exists res w',
    transmit_bb84 (N := Standin.numpy) 40 (3 # 4) (1 # 50) Standin.start = (ok res, w') /\
    10 * R_secure_bits res <= 9 * n_sifted res.
Proof.
  apply (secure_at_most_nine_tenths (N := Standin.numpy) 40 (3 # 4) (1 # 50) Standin.start).
  - discriminate.
  - exact standin_start_sample_ok.
Defined.

(** X7. When no channel draw falls below [error_prob] (as with
    [error_prob = 0]), the receiver's sifted bits are the sender's, the
    estimate is 0, the secure count is nine tenths of the sifted count
    rounded down, and the key is the sender's own leading sifted bits. *)
Theorem noiseless_session {N : Numpy_lib} (n : Z) (tp ep : Q) (w : world) :
  0 <= n -> sample_ok w ->
  (forall j, (ep <= as_random (py_tape w j))%Q) ->
  exists f w',
    transmit_bb84_locals n tp ep w = (ok f, w') /\
    Locals.b_sift f = map Some (Locals.a_sift f) /\
    (Locals.qber f == 0)%Q /\
    Locals.R_secure f = 9 * len (Locals.a_sift f) / 10 /\
    Locals.demo_key f
      = join (map str_int (firstn (Z.to_nat (Locals.R_secure f)) (Locals.a_sift f))).
Proof.
  intros Hn Hs Hq.
  destruct (transmit_locals_values n tp ep w Hn Hs)
    as (f & w' & E & _ & Hf & Hbit & Hout).
  destruct Hf as (Hsi & Ha & Hb & Hbits & [Hsize Hsam] & HR & Hkey & Hdemo).
  exists f, w'. split; [exact E|].
  assert (Hbs : Locals.b_sift f = map Some (Locals.a_sift f)).
  { rewrite Hb, Ha, map_map. apply map_ext_in. intros i Hi.
    destruct (Hout i Hi) as (j & ->). unfold outcome, flt.
    destruct (Qle_bool ep (as_random (py_tape w j))) eqn:Eq; [reflexivity|].
    exfalso. specialize (Hq j). apply Qle_bool_iff in Hq. congruence. }
  split; [exact Hbs|].
  assert (Hq0 : (Locals.qber f == 0)%Q).
  { destruct (Locals.a_sift f) as [|a l] eqn:Ea.
    - destruct Hsam as (_ & _ & ->). reflexivity.
    - destruct Hsam as (idx & _ & _ & _ & Hin & _ & ->).
      rewrite filter_none; [apply Qdiv_zero|].
      intros k Hk. unfold mismatch. rewrite Hbs.
      assert (Hlt : (k < List.length (a :: l))%nat)
        by (apply (proj1 (Forall_forall _ _) Hin); exact Hk).
      rewrite (nth_indep _ None (Some 0)) by (now rewrite length_map).
      rewrite (map_nth Some). simpl. now rewrite Z.eqb_refl. }
  split; [exact Hq0|].
  assert (HR' : Locals.R_secure f = 9 * len (Locals.a_sift f) / 10).
  { rewrite HR. apply rate_at_extremes; [unfold len; lia|]. left. now rewrite Hq0. }
  split; [exact HR'|].
  rewrite Hdemo, SimFacts.str_prefix_nonneg, Hkey
    by (rewrite HR'; apply Z.div_pos; unfold len; lia).
  rewrite (key_take _ Hbits), Hbs, firstn_map, map_map. reflexivity.
Qed.

Lemma noiseless_session_witness :
  exists f w',
    transmit_bb84_locals (N := Standin.numpy) 6 1 0 Standin.start = (ok f, w') /\
    Locals.b_sift f = map Some (Locals.a_sift f) /\
    (Locals.qber f == 0)%Q /\
    Locals.R_secure f = 9 * len (Locals.a_sift f) / 10 /\
    Locals.demo_key f
      = join (map str_int (firstn (Z.to_nat (Locals.R_secure f)) (Locals.a_sift f))).
Proof.
  apply (noiseless_session (N := Standin.numpy) 6 1 0 Standin.start).
  - discriminate.
  - exact standin_start_sample_ok.
  - intros j. simpl. discriminate.
Defined.

(** X8. When every channel draw falls below [error_prob] (as with
    [error_prob = 1]), every sifted bit reaches the receiver flipped and
    the estimate is 1 whenever anything was sifted; the entropy term is then
    0 and the session still reports nine tenths of the sifted bits as
    secure. *)
Theorem fully_noisy_session {N : Numpy_lib} (n : Z) (tp ep : Q) (w : world) :
  0 <= n -> sample_ok w ->
  (forall j, (as_random (py_tape w j) < ep)%Q) ->
  exists f w',
    transmit_bb84_locals n tp ep w = (ok f, w') /\
    Locals.b_sift f = map (fun a => Some (Z.lxor a 1)) (Locals.a_sift f) /\
    (0 < len (Locals.a_sift f) -> (Locals.qber f == 1)%Q) /\
    Locals.R_secure f = 9 * len (Locals.a_sift f) / 10.
Proof.
  intros Hn Hs Hq.
  destruct (transmit_locals_values n tp ep w Hn Hs)
    as (f & w' & E & _ & Hf & Hbit & Hout).
  destruct Hf as (Hsi & Ha & Hb & Hbits & [Hsize Hsam] & HR & Hkey & Hdemo).
  exists f, w'. split; [exact E|].
  assert (Hbs : Locals.b_sift f = map (fun a => Some (Z.lxor a 1)) (Locals.a_sift f)).
  { rewrite Hb, Ha, map_map. apply map_ext_in. intros i Hi.
    destruct (Hout i Hi) as (j & ->). unfold outcome, flt.
    destruct (Qle_bool ep (as_random (py_tape w j))) eqn:Eq; [|reflexivity].
    exfalso. apply Qle_bool_iff in Eq. specialize (Hq j).
    apply (Qlt_not_le _ _ Hq). exact Eq. }
  split; [exact Hbs|].
  assert (Hab : Forall is_bit (Locals.a_sift f)).
  { rewrite Ha. apply Forall_forall. intros a Hin.
    apply in_map_iff in Hin as (i & <- & _).
    destruct (Nat.lt_ge_cases i (List.length (Locals.a_bits f))) as [Hi | Hi].
    - apply (proj1 (Forall_forall _ _) Hbit), nth_In. exact Hi.
    - rewrite nth_overflow by exact Hi. now left. }
  assert (Hq1 : 0 < len (Locals.a_sift f) ->
                (1 <= Locals.qber f)%Q /\ (Locals.qber f == 1)%Q).
  { intros Hpos. destruct (Locals.a_sift f) as [|a l] eqn:Ea;
      [unfold len in Hpos; simpl in Hpos; lia|].
    destruct Hsam as (idx & _ & Hlen & _ & Hin & _ & Hqv).
    assert (Hone : 1 <= Locals.sample_size f).
    { rewrite Hsize. apply SimFacts.sample_size_range. exact Hpos. }
    assert (Hall : filter (mismatch (a :: l) (Locals.b_sift f)) idx = idx).
    { apply filter_all. intros k Hk. unfold mismatch. rewrite Hbs.
      assert (Hlt : (k < List.length (a :: l))%nat)
        by (apply (proj1 (Forall_forall _ _) Hin); exact Hk).
      rewrite (nth_indep _ None (Some (Z.lxor 0 1))) by (now rewrite length_map).
      rewrite (map_nth (fun a0 => Some (Z.lxor a0 1))).
      assert (Hbk : is_bit (nth k (a :: l) 0)).
      { apply (proj1 (Forall_forall _ _) Hab), nth_In. exact Hlt. }
      destruct Hbk as [-> | ->]; reflexivity. }
    rewrite Hall, Hlen in Hqv.
    assert (Heq : (Locals.qber f == 1)%Q) by (rewrite Hqv; now apply Qdiv_self).
    split; [rewrite Heq; apply Qle_refl | exact Heq]. }
  split; [intros Hpos; now apply Hq1|].
  rewrite HR.
  destruct (Z.eq_dec (len (Locals.a_sift f)) 0) as [H0 | H0].
  - destruct (Locals.a_sift f) as [|a l] eqn:Ea;
      [|unfold len in H0; simpl in H0; lia].
    destruct Hsam as (_ & _ & ->).
    apply rate_at_extremes; [unfold len; simpl; lia | left; apply Qle_refl].
  - apply rate_at_extremes; [unfold len; lia|]. right.
    apply Hq1. unfold len in *. lia.
Qed.

Lemma fully_noisy_session_witness :
  exists f w',
    transmit_bb84_locals (N := Standin.numpy) 6 1 1 Standin.start = (ok f, w') /\
    Locals.b_sift f = map (fun a => Some (Z.lxor a 1)) (Locals.a_sift f) /\
    (0 < len (Locals.a_sift f) -> (Locals.qber f == 1)%Q) /\
    Locals.R_secure f = 9 * len (Locals.a_sift f) / 10.
Proof.
  apply (fully_noisy_session (N := Standin.numpy) 6 1 1 Standin.start).
  - discriminate.
  - exact standin_start_sample_ok.
  - intros j. reflexivity.
Defined.

(** X9. When no photon arrives (no arrival draw below
    [trans_prob], as with [trans_prob = 0]) the session still returns:
    nothing is sifted, the estimate and the secure count are 0 and the key
    is empty, whatever the photon count. *)
Theorem nothing_arrives {N : Numpy_lib} (n : Z) (tp ep : Q) (w : world) :
  0 <= n ->
  (forall j, (tp <= np_tape w j)%Q) ->
  exists w',
    transmit_bb84 n tp ep w = (ok (mkSession n 0 0 0 ""), w') /\
    rng_only w w'.
Proof.
  intros Hn Hno.
  destruct (DrawFacts.exchange_run_values n tp ep w Hn)
    as (a_bits & a_bases & arrives & b_bases & br & w1
        & R1 & _ & _ & _ & Harr & _ & E).
  cbv zeta in E.
  assert (Hnone : filter (kept a_bases arrives b_bases) (range n) = []).
  { apply filter_none. intros i _. unfold kept.
    rewrite nth_all_false; [reflexivity|].
    apply Forall_forall. intros a Ha.
    destruct (proj1 (Forall_forall _ _) Harr a Ha) as (j & ->).
    unfold flt. specialize (Hno j). apply Qle_bool_iff in Hno. now rewrite Hno. }
  rewrite Hnone in E. exists w1. split; [|exact R1].
  unfold transmit_bb84, bind. rewrite E. reflexivity.
Qed.

Lemma nothing_arrives_witness :
  exists w',
    transmit_bb84 (N := Standin.numpy) 50 0 (1 # 50) Standin.start
      = (ok (mkSession 50 0 0 0 ""), w') /\
    rng_only Standin.start w'.
Proof.
  apply (nothing_arrives (N := Standin.numpy) 50 0 (1 # 50) Standin.start).
  - discriminate.
  - intros j. simpl. discriminate.
Defined.

(* ================================================================== *)
(** * Clamped quantities: fidelity, radiation, telemetry *)
(* ================================================================== *)

Module ClampFacts.

Lemma flt_true (x y : Q) : flt x y = true -> (x < y)%Q.
Proof.
  unfold flt. intros H. apply negb_true_iff in H.
  apply Qnot_le_lt. rewrite <- Qle_bool_iff. congruence.
Qed.

Lemma flt_false (x y : Q) : flt x y = false -> (y <= x)%Q.
Proof.
  unfold flt. intros H. apply negb_false_iff in H. now apply Qle_bool_iff.
Qed.

Lemma fmin_spec (x y : Q) :
  (fmin x y <= x)%Q /\ (fmin x y <= y)%Q /\ (fmin x y = x \/ fmin x y = y).
Proof.
  unfold fmin. destruct (flt y x) eqn:E.
  - apply flt_true in E. repeat split; auto; lra.
  - apply flt_false in E. repeat split; auto; lra.
Qed.

Lemma fmax_spec (x y : Q) :
  (x <= fmax x y)%Q /\ (y <= fmax x y)%Q /\ (fmax x y = x \/ fmax x y = y).
Proof.
  unfold fmax. destruct (flt x y) eqn:E.
  - apply flt_true in E. repeat split; auto; lra.
  - apply flt_false in E. repeat split; auto; lra.
Qed.

(** [clip] lands in the interval, and is the identity inside it. *)
Lemma clip_range (x lo hi : Q) :
  (lo <= hi)%Q -> (lo <= clip x lo hi)%Q /\ (clip x lo hi <= hi)%Q.
Proof.
  intros H. unfold clip.
  destruct (fmax_spec x lo) as (_ & Hb & _).
  destruct (fmin_spec (fmax x lo) hi) as (_ & Hd & [He | He]); rewrite He in *;
    split; lra.
Qed.

Lemma clip_inside (x lo hi : Q) :
  (lo <= x)%Q -> (x <= hi)%Q -> clip x lo hi = x.
Proof.
  intros H1 H2. unfold clip, fmax, fmin.
  destruct (flt x lo) eqn:E1; [apply flt_true in E1; lra|].
  destruct (flt hi x) eqn:E2; [apply flt_true in E2; lra | reflexivity].
Qed.

Lemma clip_below (x lo hi : Q) :
  (x <= lo)%Q -> (lo <= hi)%Q -> (clip x lo hi == lo)%Q.
Proof.
  intros H1 H2. unfold clip.
  destruct (fmax_spec x lo) as (Ha & Hb & Hc).
  destruct (fmin_spec (fmax x lo) hi) as (Hd & He & Hf).
  apply Qle_antisym; [|destruct Hf as [-> | ->]; lra].
  destruct Hc as [Hc | Hc]; rewrite Hc in *; lra.
Qed.

Lemma clip_above (x lo hi : Q) :
  (hi <= x)%Q -> (lo <= hi)%Q -> (clip x lo hi == hi)%Q.
Proof.
  intros H1 H2. unfold clip.
  destruct (fmax_spec x lo) as (Ha & Hb & Hc).
  destruct (fmin_spec (fmax x lo) hi) as (Hd & He & Hf).
  apply Qle_antisym; [exact He|].
  destruct Hf as [-> | ->]; lra.
Qed.

Lemma clip_monotone (x y lo hi : Q) :
  (x <= y)%Q -> (clip x lo hi <= clip y lo hi)%Q.
Proof.
  intros H. unfold clip.
  destruct (fmax_spec x lo) as (Ha & Hb & Hc).
  destruct (fmax_spec y lo) as (Ha' & Hb' & Hc').
  destruct (fmin_spec (fmax x lo) hi) as (Hd & He & Hf).
  destruct (fmin_spec (fmax y lo) hi) as (Hd' & He' & Hf').
  assert (Hm : (fmax x lo <= fmax y lo)%Q)
    by (destruct Hc as [-> | ->]; lra).
  destruct Hf' as [-> | ->]; lra.
Qed.

(** [max(lo, min(hi, x))] lands between its integer bounds, and so
    does its truncation. *)
Lemma clamp_range (lo hi x : Q) :
  (lo <= hi)%Q ->
  (lo <= fmax lo (fmin hi x))%Q /\ (fmax lo (fmin hi x) <= hi)%Q.
Proof.
  intros H.
  destruct (fmin_spec hi x) as (Ha & _ & _).
  destruct (fmax_spec lo (fmin hi x)) as (Hc & _ & He).
  split; [exact Hc|].
  destruct He as [He | He]; rewrite He; lra.
Qed.

Lemma int_of_float_between (a b : Z) (x : Q) :
  0 <= a -> (inject_Z a <= x)%Q -> (x <= inject_Z b)%Q ->
  a <= int_of_float x <= b.
Proof.
  intros Ha H1 H2.
  assert (H0 : (0 <= x)%Q).
  { pose proof (SimFacts.inject_Z_nonneg a Ha). lra. }
  rewrite SimFacts.int_of_float_nonneg by exact H0.
  split.
  - rewrite <- (Qfloor_Z a). now apply Qfloor_resp_le.
  - rewrite <- (Qfloor_Z b). now apply Qfloor_resp_le.
Qed.

Lemma round_half_even_between (a b : Z) (y : Q) :
  (inject_Z a <= y)%Q -> (y <= inject_Z b)%Q ->
  a <= round_half_even y <= b.
Proof.
  intros H1 H2. unfold round_half_even. cbv zeta.
  assert (Hfa : a <= Qfloor y)
    by (rewrite <- (Qfloor_Z a); now apply Qfloor_resp_le).
  assert (Hfb : Qfloor y <= b)
    by (rewrite <- (Qfloor_Z b); now apply Qfloor_resp_le).
  assert (Hup : (1 # 2 <= y - inject_Z (Qfloor y))%Q -> Qfloor y + 1 <= b).
  { intros Hr.
    assert (Hlt : (inject_Z (Qfloor y) < inject_Z b)%Q) by lra.
    rewrite <- Zlt_Qlt in Hlt. lia. }
  destruct (flt (y - inject_Z (Qfloor y)) (1 # 2)) eqn:E1; [lia|].
  apply flt_false in E1.
  destruct (flt (1 # 2) (y - inject_Z (Qfloor y))); [split; [lia | now apply Hup]|].
  destruct (Z.even (Qfloor y)); [lia | split; [lia | now apply Hup]].
Qed.

Lemma round2_between (a b : Z) (x : Q) :
  (inject_Z a <= x)%Q -> (x <= inject_Z b)%Q ->
  (inject_Z a <= round2 x)%Q /\ (round2 x <= inject_Z b)%Q.
Proof.
  intros H1 H2. unfold round2.
  destruct (round_half_even_between (a * 100) (b * 100) (x * 100)) as [Ha Hb].
  { rewrite inject_Z_mult. change (inject_Z 100) with 100%Q. lra. }
  { rewrite inject_Z_mult. change (inject_Z 100) with 100%Q. lra. }
  rewrite Zle_Qle, inject_Z_mult in Ha, Hb.
  change (inject_Z 100) with 100%Q in Ha, Hb.
  split.
  - apply Qle_shift_div_l; [reflexivity | exact Ha].
  - apply Qle_shift_div_r; [reflexivity | exact Hb].
Qed.

End ClampFacts.

(** X10. The radiation scalar is always in [0,1]; it is 0 up to 200 km,
    1 from 1000 km, the straight line [(alt - 200) / 800] between, and it
    never decreases with altitude. *)
Theorem estimate_radiation_profile (alt_km : Q) :
  (0 <= OrbitSim.estimate_radiation alt_km <= 1)%Q /\
  ((alt_km <= 200)%Q -> (OrbitSim.estimate_radiation alt_km == 0)%Q) /\
  ((1000 <= alt_km)%Q -> (OrbitSim.estimate_radiation alt_km == 1)%Q) /\
  ((200 <= alt_km <= 1000)%Q ->
   OrbitSim.estimate_radiation alt_km = ((alt_km - 200) / 800)%Q) /\
  (forall higher, (alt_km <= higher)%Q ->
     (OrbitSim.estimate_radiation alt_km <= OrbitSim.estimate_radiation higher)%Q).
Proof.
  unfold OrbitSim.estimate_radiation.
  split; [apply ClampFacts.clip_range; lra|].
  split; [intros H; apply ClampFacts.clip_below; [|lra];
          apply Qle_shift_div_r; [reflexivity | lra]|].
  split; [intros H; apply ClampFacts.clip_above; [|lra];
          apply Qle_shift_div_l; [reflexivity | lra]|].
  split.
  - intros [H1 H2]. apply ClampFacts.clip_inside.
    + apply Qle_shift_div_l; [reflexivity | lra].
    + apply Qle_shift_div_r; [reflexivity | lra].
  - intros higher H. apply ClampFacts.clip_monotone.
    unfold Qdiv. apply Qmult_le_compat_r; [lra | discriminate].
Qed.



(** X12. Whatever the clock and the deviates, the demo telemetry has a
    heart rate in 50..120, an oxygen saturation in 85..100, a temperature in
    34..40 and the device name ["ARD01"], and it uses three deviates. *)
Theorem demo_telemetry_in_range (e : DataSensor.env) (pos : nat) :
  exists t,
    DataSensor.get_demo_telemetry e pos = (t, (pos + 3)%nat) /\
    50 <= DataSensor.hr t <= 120 /\
    85 <= DataSensor.spo2 t <= 100 /\
    (34 <= DataSensor.temp t <= 40)%Q /\
    DataSensor.device t = "ARD01".
Proof.
  eexists. split.
  { unfold DataSensor.get_demo_telemetry, DataSensor.random_gauss. cbv zeta.
    replace (pos + 3)%nat with (S (S (S pos))) by lia. reflexivity. }
  cbn [DataSensor.hr DataSensor.spo2 DataSensor.temp DataSensor.device].
  split.
  { apply ClampFacts.int_of_float_between; [lia | |];
      apply (ClampFacts.clamp_range 50 120); discriminate. }
  split.
  { apply ClampFacts.int_of_float_between; [lia | |];
      apply (ClampFacts.clamp_range 85 100); discriminate. }
  split; [|reflexivity].
  apply (ClampFacts.round2_between 34 40);
    apply (ClampFacts.clamp_range 34 40); discriminate.
Qed.

(* ================================================================== *)
(** * More on the handlers *)
(* ================================================================== *)

Module HandlerFacts.
Import CryptoUtils QuantumSim Backend View.

Lemma str_take_append (k : nat) (s t : string) :
  (k <= String.length s)%nat -> str_take k (s ++ t)%string = str_take k s.
Proof.
  revert s; induction k as [|k IH]; intros s H.
  - reflexivity.
  - destruct s as [|c s]; simpl in *; [lia|]. rewrite IH; [reflexivity | lia].
Qed.



Section WithLibs.
Context {L : AESGCM_lib} {N : Numpy_lib} {B : Backend_lib}.

(** A session that returns, as [run_qkd] sees it. *)
Lemma transmit_returns {O : Numpy_ok N} (n : Z) (tp ep : Q) (w : world) :
  0 <= n -> sample_ok w ->
  exists res w',
    transmit_bb84 n tp ep w = (ok res, w') /\ rng_only w w' /\
    len_str (sifted_key res) = R_secure_bits res.
Proof.
  intros Hn Hs.
  destruct (SimFacts.transmit_locals_total n tp ep w Hn Hs)
    as (f & w' & E & R & Hf).
  destruct Hf as (Hsi & Ha & Hb & Hbits & Hsam & HR & Hkey & Hdemo).
  exists (result_dict n f), w'. unfold transmit_bb84. run E.
  split; [reflexivity|]. split; [exact R|]. unfold result_dict; simpl.
  assert (Hk : 0 <= len (Locals.a_sift f)) by (unfold len; lia).
  pose proof (SimFacts.R_secure_range (len (Locals.a_sift f)) (Locals.qber f) Hk) as HRr.
  rewrite <- HR in HRr.
  rewrite Hdemo, SimFacts.str_prefix_nonneg by lia.
  unfold len_str. rewrite str_take_length, Hkey.
  destruct (SimFacts.key_of_bits _ Hbits) as [_ Hl]. rewrite Hl.
  assert (Hab : List.length (Locals.b_sift f) = List.length (Locals.a_sift f))
    by (rewrite Ha, Hb; now rewrite !length_map).
  unfold len in HRr. lia.
Qed.

(** What [run_qkd] leaves behind, given what the session returned. *)
Lemma run_qkd_after (n : Z) (alt lat lon ep : Q) (w w1 : world)
    (res : session_result) :
  let d := sat_ground_distance_km alt GS_LAT GS_LON lat lon in
  transmit_bb84 n (trans_prob_from_distance d) ep w = (ok res, w1) ->
  exists w',
    run_qkd n alt lat lon ep w
    = (ok (mkRunResponse (R_secure_bits res)
             (len_str (KEY_BUFFER w1 ++ sifted_key res)%string)
             (mkStats d (trans_prob_from_distance d) res)), w') /\
    KEY_BUFFER w' = (KEY_BUFFER w1 ++ sifted_key res)%string /\
    LAST_QKD w' = Some (mkStats d (trans_prob_from_distance d) res) /\
    py_pos w' = py_pos w1 /\ np_pos w' = np_pos w1 /\ os_pos w' = os_pos w1.
Proof.
  intros d E. unfold run_qkd. cbv zeta. fold d. run E.
  eexists. split; [reflexivity|]. simpl. auto 10.
Qed.



(** Encrypting moves nothing but the [os.urandom] position, and
    decrypting followed by parsing moves nothing at all, whatever they
    return. *)
Lemma encrypt_frame (key_bits : string) (data : list byte) (w : world) :
  KEY_BUFFER (snd (aesgcm_encrypt_with_bits key_bits data w)) = KEY_BUFFER w.
Proof.
  unfold aesgcm_encrypt_with_bits, bind, lift.
  destruct (bits_to_bytes key_bits 16) as [e | key]; [reflexivity|].
  destruct (AESGCM key) as [e | k]; reflexivity.
Qed.

Lemma decrypt_parse_frame (key_bits : string) (blob : list byte) (w : world) :
  snd ((pt <- aesgcm_decrypt_with_bits key_bits blob ;;
        lift (json_loads_decode pt)) w) = w.
Proof.
  unfold aesgcm_decrypt_with_bits, bind, lift, ret.
  destruct (bits_to_bytes key_bits 16) as [e | key]; [reflexivity|].
  destruct (AESGCM key) as [e | k]; [reflexivity|].
  destruct (aes_gcm_decrypt k (firstn 12 blob) (skipn 12 blob)); reflexivity.
Qed.

End WithLibs.

End HandlerFacts.

(** X13. A session request with a photon count that is not negative
    succeeds: the key it reports is appended to the end of the buffer, the
    reported [added_bits] is that key's length, the reported buffer length
    is the old length plus [added_bits], and the snapshot becomes the
    reported statistics. *)
Theorem run_qkd_bookkeeping {N : Numpy_lib} {O : Numpy_ok N}
    {B : Backend_lib} (n : Z) (alt lat lon ep : Q) (w : world) :
  0 <= n -> sample_ok w ->
  exists resp w',
    run_qkd n alt lat lon ep w = (ok resp, w') /\
    KEY_BUFFER w'
      = (KEY_BUFFER w ++ sifted_key (session (qkd_stats_of resp)))%string /\
    added_bits resp = len_str (sifted_key (session (qkd_stats_of resp))) /\
    run_key_buffer_len resp = len_str (KEY_BUFFER w) + added_bits resp /\
    run_key_buffer_len resp = len_str (KEY_BUFFER w') /\
    LAST_QKD w' = Some (qkd_stats_of resp).
Proof.
  intros Hn Hs.
  destruct (HandlerFacts.transmit_returns n
              (trans_prob_from_distance
                 (sat_ground_distance_km alt GS_LAT GS_LON lat lon)) ep w Hn Hs)
    as (res & w1 & E & R & Hlen).
  destruct (HandlerFacts.run_qkd_after n alt lat lon ep w w1 res E)
    as (w' & Erun & Hkb & Hlast & _).
  destruct R as (Rk & _). rewrite Rk in *.
  eexists; exists w'. split; [exact Erun|]. simpl.
  split; [exact Hkb|]. split; [now rewrite Hlen|].
  split; [unfold len_str; rewrite append_length; unfold len_str in Hlen; lia|].
  split; [now rewrite Hkb | exact Hlast].
Qed.

Lemma run_qkd_bookkeeping_witness :
  exists resp w',
    run_qkd (N := Standin.numpy) (B := Standin.backend)
      300 500 0 0 (1 # 50) Standin.start = (ok resp, w') /\
    run_key_buffer_len resp = len_str (KEY_BUFFER Standin.start) + added_bits resp /\
    LAST_QKD w' = Some (qkd_stats_of resp).
Proof.
  destruct (run_qkd_bookkeeping (N := Standin.numpy)
              (B := Standin.backend) 300 500 0 0 (1 # 50) Standin.start)
    as (resp & w' & E & _ & _ & Hlen & _ & Hlast).
  - discriminate.
  - exact standin_start_sample_ok.
  - exists resp, w'. split; [exact E|]. split; [exact Hlen | exact Hlast].
Defined.

(** X14. Whatever a session request does, the buffer afterwards is the
    old buffer followed by a bit string: no buffered bit is changed,
    dropped or reordered, so the chunk the next [ingest] will take is the
    same as before whenever it was already complete. *)
Theorem run_qkd_keeps_buffered_bits {N : Numpy_lib}
    {B : Backend_lib} (n : Z) (alt lat lon ep : Q) (w : world) :
  exists suffix,
    KEY_BUFFER (snd (run_qkd n alt lat lon ep w))
      = (KEY_BUFFER w ++ suffix)%string /\
    is_bits suffix = true /\
    forall k, (k <= String.length (KEY_BUFFER w))%nat ->
      str_take k (KEY_BUFFER (snd (run_qkd n alt lat lon ep w)))
      = str_take k (KEY_BUFFER w).
Proof.
  destruct (BackendFacts.run_qkd_effect n alt lat lon ep w)
    as (r & w' & E & H).
  rewrite E. cbn [snd].
  assert (Hs : exists suffix,
             KEY_BUFFER w' = (KEY_BUFFER w ++ suffix)%string /\ is_bits suffix = true).
  { destruct r as [e | resp].
    - exists "". split; [|reflexivity]. rewrite H.
      clear. induction (KEY_BUFFER w); simpl; congruence.
    - destruct H as (Hk & Hb & _). eexists. split; [exact Hk | exact Hb]. }
  destruct Hs as (suffix & Hk & Hb). exists suffix.
  split; [exact Hk|]. split; [exact Hb|].
  intros k Hle. rewrite Hk. now apply HandlerFacts.str_take_append.
Qed.

(** X15. A session request with a negative photon count raises
    numpy's [ValueError] and changes nothing: buffer, snapshot and random
    sources are as before. *)
Theorem run_qkd_negative {N : Numpy_lib} {B : Backend_lib}
    (n : Z) (alt lat lon ep : Q) (w : world) :
  n < 0 ->
  run_qkd n alt lat lon ep w
  = (raise (ValueError "negative dimensions are not allowed"), w).
Proof.
  intros Hn. unfold run_qkd. cbv zeta.
  apply bind_raise_run. unfold transmit_bb84.
  now rewrite (bind_raise_run _ _ _ (SimFacts.transmit_negative n _ ep w Hn)).
Qed.

Lemma run_qkd_negative_witness :
  run_qkd (N := Standin.numpy) (B := Standin.backend)
    (-5) 500 0 0 (1 # 50) Standin.start
  = (raise (ValueError "negative dimensions are not allowed"), Standin.start).
Proof.
  apply (run_qkd_negative (N := Standin.numpy)
           (B := Standin.backend) (-5) 500 0 0 (1 # 50) Standin.start).
  reflexivity.
Defined.

(** X16. When decrypting or parsing fails on the secure path, [ingest]
    answers with status ["error"] and the message
    ["Decryption Failed: "] followed by the exception's text; the 128 bits
    it took are gone and no risk evaluation is returned. *)
Theorem ingest_decryption_failure {L : AESGCM_lib} {B : Backend_lib}
    (rq : request) (w w1 w2 : world) (secured : list byte) (e : exn) :
  128 <= len_str (KEY_BUFFER w) ->
  aesgcm_encrypt_with_bits (str_take 128 (KEY_BUFFER w))
    (json_dumps_encode (body rq)) (withdrawn w) = (ok secured, w1) ->
  (pt <- aesgcm_decrypt_with_bits (str_take 128 (KEY_BUFFER w)) secured ;;
   lift (json_loads_decode pt)) w1 = (raise e, w2) ->
  ingest rq w
  = (ok (mkIngestResponse "error" None None None
           (Some ("Decryption Failed: " ++ exn_str e)%string)
           (len_str (KEY_BUFFER w) - 128)), w2) /\
  KEY_BUFFER w2 = str_drop 128 (KEY_BUFFER w).
Proof.
  intros Hlen Eenc Etry.
  assert (Hk : KEY_BUFFER w2 = str_drop 128 (KEY_BUFFER w)).
  { pose proof (HandlerFacts.decrypt_parse_frame
                  (str_take 128 (KEY_BUFFER w)) secured w1) as H2.
    rewrite Etry in H2. simpl in H2. subst w2.
    pose proof (HandlerFacts.encrypt_frame (str_take 128 (KEY_BUFFER w))
                  (json_dumps_encode (body rq)) (withdrawn w)) as H1.
    rewrite Eenc in H1. exact H1. }
  split; [|exact Hk].
  unfold ingest. cbv zeta.
  run (BackendFacts.get_KEY_BUFFER_run w).
  destruct (Z.leb_spec 128 (len_str (KEY_BUFFER w))); [|lia].
  run (BackendFacts.set_KEY_BUFFER_run (str_drop 128 (KEY_BUFFER w)) w).
  fold (withdrawn w). run Eenc.
  assert (Ea : attempt (pt <- aesgcm_decrypt_with_bits
                                (str_take 128 (KEY_BUFFER w)) secured ;;
                        lift (json_loads_decode pt)) w1
               = (ok (raise e), w2)).
  { unfold attempt. now rewrite Etry. }
  run Ea. unfold raise at 1. cbv iota beta.
  run (BackendFacts.get_KEY_BUFFER_run w2).
  unfold ret. do 3 f_equal.
  rewrite Hk. unfold len_str in *. rewrite str_drop_length. lia.
Qed.

Lemma ingest_decryption_failure_witness :
  ingest (L := Standin.refusing) Standin.req (Standin.with_buffer (Standin.bits10 130))
  = (ok (mkIngestResponse "error" None None None
           (Some ("Decryption Failed: " ++ exn_str InvalidTag)%string)
           (len_str (KEY_BUFFER (Standin.with_buffer (Standin.bits10 130))) - 128)),
     snd (aesgcm_encrypt_with_bits (L := Standin.refusing)
            (str_take 128 (Standin.bits10 130))
            (json_dumps_encode (body Standin.req))
            (withdrawn (Standin.with_buffer (Standin.bits10 130))))).
Proof.
  eapply (ingest_decryption_failure (L := Standin.refusing) (B := Standin.backend)
            Standin.req (Standin.with_buffer (Standin.bits10 130))).
  - vm_compute. discriminate.
  - vm_compute. reflexivity.
  - vm_compute. reflexivity.
Defined.





(** X19. [random_bits(n)] returns [max(n, 0)] integers, each 0 or 1,
    and [random_bases(n)] as many strings, each ["Z"] or ["X"]; both only
    advance the random tapes. *)
Theorem random_bits_and_bases (n : Z) (w : world) :
  (exists l w',
     QuantumSim.random_bits n w = (ok l, w') /\
     len l = Z.max n 0 /\ Forall (fun b => b = 0 \/ b = 1) l /\ rng_only w w') /\
  (exists l w',
     QuantumSim.random_bases n w = (ok l, w') /\
     len l = Z.max n 0 /\ Forall (fun s => s = "Z" \/ s = "X") l /\ rng_only w w').
Proof.
  split.
  - destruct (SimFacts.random_bits_run n w) as (l & w' & E & Hl & Hb & R).
    exists l, w'. split; [exact E|]. split; [unfold len; lia|].
    split; [exact Hb | exact R].
  - destruct (comprehension_run (fun _ : nat => random_choice2 "Z" "X")
                (fun s => s = "Z" \/ s = "X") (range n))
      with (w := w) as (l & w' & E & Hl & HP & R).
    { intros _ w0. destruct (next_draw_run w0) as (w1 & E & R).
      exists (if as_choice2 (py_tape w0 (py_pos w0)) then "X" else "Z"), w1.
      unfold random_choice2. run E. split; [reflexivity|].
      split; [destruct (as_choice2 _); auto | exact R]. }
    exists l, w'. split; [exact E|].
    unfold range in Hl. rewrite length_seq in Hl.
    split; [unfold len; lia|]. split; [exact HP | exact R].
Qed.
